(** * Warden: image trust validator and webhook configuration reconciler

    A shallow embedding of [internal/validate] ([notaryService.Validate] and
    its helpers) and of [internal/webhook/certs]
    ([EnsureWebhookConfigurationFor] and the desired-object builders).

    Go values are modelled as follows.
    - [string] is a byte string: Rocq's [string] (a list of [ascii]).
    - [[]byte] is [list byte]; byte arithmetic goes through [Z] with the
      8 and 32 bit wrap-around written out.
    - A function returning [(T, error)] returns [result T]; a function
      returning [error] returns [option error], [None] being [nil].
    - Calls that leave the process (trust service, registry, cluster API
      server) are functions on an abstract world [W]; [traced] puts a call
      log next to the world so that "no call was made" can be stated. *)

From Stdlib Require Import ZArith Lia Bool.
From Stdlib Require Import Strings.Byte Strings.Ascii Strings.String.
From stdpp Require Import base gmap strings list fin_maps.

Local Open Scope string_scope.
Local Open Scope list_scope.

#[global] Instance byte_eq_dec : EqDecision byte := Byte.byte_eq_dec.

(** ** Errors *)

Module Errors.

(** The [error] values that occur in the two packages.  [errors_New] is
    the standard library's [errors.New]; [fmt_Errorf_w prefix e] is
    [fmt.Errorf(prefix + "%w", e)]; [errors_Wrap e msg] is
    [github.com/pkg/errors.Wrap(e, msg)] for a non-nil [e] (the recorded
    stack is left out); [StatusError] is the API machinery's status error
    with its reason; [context_DeadlineExceeded] is the sentinel of package
    [context]. *)
Inductive error : Type :=
| errors_New (msg : string)
| fmt_Errorf_w (prefix : string) (cause : error)
| errors_Wrap (cause : error) (msg : string)
| StatusError (reason : string) (msg : string)
| context_DeadlineExceeded.

#[global] Instance error_eq_dec : EqDecision error.
Proof. solve_decision. Defined.

(** The [Error()] method. *)
Fixpoint Error (e : error) : string :=
  match e with
  | errors_New msg => msg
  | fmt_Errorf_w prefix cause => prefix +:+ Error cause
  | errors_Wrap cause msg => msg +:+ ": " +:+ Error cause
  | StatusError _ msg => msg
  | context_DeadlineExceeded => "context deadline exceeded"
  end.

(** [pkg/errors.Wrap]: [nil] stays [nil]. *)
Definition Wrap (err : option error) (message : string) : option error :=
  match err with
  | None => None
  | Some e => Some (errors_Wrap e message)
  end.

Definition StatusReasonNotFound : string := "NotFound".

(** [apiErrors.IsNotFound]: the reason of the first status error in the
    chain is [NotFound].  Status errors carry no HTTP code here, so the
    library's further case, an unknown reason with code 404, is left
    out. *)
Fixpoint IsNotFound (e : error) : bool :=
  match e with
  | StatusError reason _ => bool_decide (reason = StatusReasonNotFound)
  | fmt_Errorf_w _ cause => IsNotFound cause
  | errors_Wrap cause _ => IsNotFound cause
  | _ => false
  end.

Inductive result (A : Type) : Type :=
| Ok (a : A)
| Err (e : error).
#[global] Arguments Ok {A} a.
#[global] Arguments Err {A} e.

End Errors.
Export Errors.

(** ** The parts of the Go standard library that [Validate] calls *)

Module GoStrings.

(** [strings.Split(s, sep)] for a one-byte separator: the pieces of [s]
    between the occurrences of [sep], always at least one piece. *)
Fixpoint Split (s : string) (sep : ascii) : list string :=
  match s with
  | EmptyString => [EmptyString]
  | String c s' =>
      if Ascii.eqb c sep then EmptyString :: Split s' sep
      else match Split s' sep with
           | piece :: rest => String c piece :: rest
           | [] => [String c EmptyString]
           end
  end.

(** [strings.Count(s, sep)] for a one-byte separator. *)
Fixpoint Count (s : string) (sep : ascii) : nat :=
  match s with
  | EmptyString => 0
  | String c s' => (if Ascii.eqb c sep then 1 else 0) + Count s' sep
  end.

(** [strings.HasPrefix(s, prefix)]. *)
Fixpoint HasPrefix (s prefix : string) : bool :=
  match prefix, s with
  | EmptyString, _ => true
  | String _ _, EmptyString => false
  | String p prefix', String c s' => Ascii.eqb c p && HasPrefix s' prefix'
  end.

End GoStrings.

Module Subtle.

Definition uint8 (z : Z) : Z := z mod 2 ^ 8.
Definition uint32 (z : Z) : Z := z mod 2 ^ 32.

Definition byte_val (b : byte) : Z := Z.of_N (Byte.to_N b).

(** [subtle.ConstantTimeByteEq(x, y)]:
    [int((uint32(x^y) - 1) >> 31)]. *)
Definition ConstantTimeByteEq (x y : Z) : Z :=
  Z.shiftr (uint32 (uint32 (Z.lxor x y) - 1)) 31.

(** The loop of [subtle.ConstantTimeCompare],
    [for i := 0; i < len(x); i++ { v |= x[i] ^ y[i] }],
    run from index [i] on the remaining bytes.  Next to the accumulator
    it returns the indices whose bytes it read, in order. *)
Fixpoint compare_loop (i : nat) (x y : list byte) (v : Z) (seen : list nat)
  : Z * list nat :=
  match x, y with
  | a :: x', b :: y' =>
      compare_loop (S i) x' y'
        (uint8 (Z.lor v (Z.lxor (byte_val a) (byte_val b)))) (seen ++ [i])
  | _, _ => (v, seen)
  end.

(** [subtle.ConstantTimeCompare(x, y)] with the list of inspected byte
    positions: [0] at once when the lengths differ, else the loop and
    [ConstantTimeByteEq(v, 0)]. *)
Definition ConstantTimeCompare_inspect (x y : list byte) : Z * list nat :=
  if negb (length x =? length y)%nat then (0%Z, [])
  else let '(v, seen) := compare_loop 0 x y 0%Z [] in
       (ConstantTimeByteEq v 0, seen).

Definition ConstantTimeCompare (x y : list byte) : Z :=
  fst (ConstantTimeCompare_inspect x y).

(** The byte positions [ConstantTimeCompare] reads. *)
Definition inspected (x y : list byte) : list nat :=
  snd (ConstantTimeCompare_inspect x y).

End Subtle.

Module GoContext.

(** [context.Context], as far as a callee can observe it: what [Err()]
    and [Deadline()] return. *)
Record Context : Type := {
  ctx_Err : option error;
  ctx_Deadline : option Z;
}.

End GoContext.

(** ** Package [validate]: the image trust validator *)

Module Validate.
Import GoStrings Subtle.
Export GoContext.

Definition tagDelim : ascii := ":".

(** Modelled from the spec: [NotaryConfig] is declared in a file of the
    package that is not at hand; it holds the trust-service connection
    parameters, of which [image_test.go] sets [Url].  [Validate] only
    passes it on. *)
Record NotaryConfig : Type := {
  Url : string;
}.

(** The notary client's [TargetWithRole], with the fields of its [Target]:
    [Hashes] is a Go map from hash algorithm to digest bytes. *)
Record TargetWithRole : Type := {
  Name : string;
  Hashes : gmap string (list byte);
  Length : Z;
  Role : string;
}.

(** The [Manifest] of a registry image, reduced to [Config.Digest.Hex]. *)
Record v1_Manifest : Type := {
  Config_Digest_Hex : string;
}.

Section Collaborators.
Context {W : Type}.

(** The client interface of the trust repository: [GetTargetByName]. *)
Record NotaryRepoClient : Type := {
  GetTargetByName : string -> W -> result TargetWithRole * W;
}.

(** The [RepoFactory] interface: [NewRepoClient(imgRepo, NotaryConfig)]. *)
Record RepoFactory : Type := {
  NewRepoClient : string -> NotaryConfig -> W -> result NotaryRepoClient * W;
}.

(** A [v1.Image] as returned by [remote.Image]: its [Manifest()]. *)
Record v1_Image : Type := {
  Manifest : W -> result v1_Manifest * W;
}.

(** The package-level functions of [go-containerregistry] and
    [encoding/hex] that [getImageDigestHash] calls.  Parsing and hex
    decoding are pure; [remote.Image] reaches the registry. *)
Record Registry : Type := {
  Reference : Type;
  name_ParseReference : string -> result Reference;
  remote_Image : Reference -> W -> result v1_Image * W;
  hex_DecodeString : string -> result (list byte);
}.

Record ServiceConfig : Type := {
  NotaryConfig_ : NotaryConfig;
  AllowedRegistries : list string;
}.

Record notaryService : Type := {
  ServiceConfig_ : ServiceConfig;
  RepoFactory_ : RepoFactory;
}.

Definition NewImageValidator (sc : ServiceConfig) (notaryClientFactory : RepoFactory)
  : notaryService :=
  {| ServiceConfig_ := {| NotaryConfig_ := NotaryConfig_ sc;
                          AllowedRegistries := AllowedRegistries sc |};
     RepoFactory_ := notaryClientFactory |}.

(** The loop of [isImageAllowed] over the allow list. *)
Fixpoint isImageAllowed_loop (allowedRegistries : list string) (imgRepo : string) : bool :=
  match allowedRegistries with
  | [] => false
  | allowed :: rest =>
      if HasPrefix imgRepo allowed then true
      else isImageAllowed_loop rest imgRepo
  end.

Definition isImageAllowed (s : notaryService) (imgRepo : string) : bool :=
  isImageAllowed_loop (AllowedRegistries (ServiceConfig_ s)) imgRepo.

Variable registry : Registry.

Definition getImageDigestHash (s : notaryService) (image : string) (w : W)
  : result (list byte) * W :=
  if (String.length image =? 0)%nat then (Err (errors_New "empty image provided"), w)
  else
    match name_ParseReference registry image with
    | Err err => (Err (fmt_Errorf_w "ref parse: " err), w)
    | Ok ref =>
        match remote_Image registry ref w with
        | (Err err, w1) => (Err (fmt_Errorf_w "get image: " err), w1)
        | (Ok i, w1) =>
            match Manifest i w1 with
            | (Err err, w2) => (Err (fmt_Errorf_w "image manifest: " err), w2)
            | (Ok m, w2) =>
                match hex_DecodeString registry (Config_Digest_Hex m) with
                | Err err => (Err (fmt_Errorf_w "checksum error: " err), w2)
                | Ok bytes => (Ok bytes, w2)
                end
            end
        end
    end.

(** [key := ""; for i := range target.Hashes { key = i }]. *)
Definition last_key (hashes : gmap string (list byte)) : string :=
  foldl (fun _ kv => fst kv) "" (map_to_list hashes).

(** [target.Hashes[key]]: the zero value (a nil slice) for an absent key. *)
Definition index_Hashes (hashes : gmap string (list byte)) (key : string) : list byte :=
  match hashes !! key with
  | Some h => h
  | None => []
  end.

Definition getNotaryImageDigestHash (s : notaryService) (ctx : Context)
    (imgRepo imgTag : string) (w : W) : result (list byte) * W :=
  if (String.length imgRepo =? 0)%nat || (String.length imgTag =? 0)%nat
  then (Err (errors_New "empty arguments provided"), w)
  else
    match NewRepoClient (RepoFactory_ s) imgRepo (NotaryConfig_ (ServiceConfig_ s)) w with
    | (Err err, w1) => (Err err, w1)
    | (Ok c, w1) =>
        match GetTargetByName c imgTag w1 with
        | (Err err, w2) => (Err err, w2)
        | (Ok target, w2) =>
            if (size (Hashes target) =? 0)%nat
            then (Err (errors_New "image hash is missing"), w2)
            else if (1 <? size (Hashes target))%nat
            then (Err (errors_New "more than one hash for image"), w2)
            else (Ok (index_Hashes (Hashes target) (last_key (Hashes target))), w2)
        end
    end.

Definition Validate (s : notaryService) (ctx : Context) (image : string) (w : W)
  : option error * W :=
  let split := Split image tagDelim in
  if negb (length split =? 2)%nat
  then (Some (errors_New "image name is not formatted correctly"), w)
  else
    let imgRepo := nth 0 split "" in
    let imgTag := nth 1 split "" in
    if isImageAllowed s imgRepo then (None, w)
    else
      match getNotaryImageDigestHash s ctx imgRepo imgTag w with
      | (Err err, w1) => (Some err, w1)
      | (Ok expectedShaBytes, w1) =>
          match getImageDigestHash s image w1 with
          | (Err err, w2) => (Some err, w2)
          | (Ok shaBytes, w2) =>
              if (ConstantTimeCompare shaBytes expectedShaBytes =? 0)%Z
              then (Some (errors_New "unexpected image hash value"), w2)
              else (None, w2)
          end
      end.

End Collaborators.

#[global] Arguments NotaryRepoClient : clear implicits.
#[global] Arguments RepoFactory : clear implicits.
#[global] Arguments v1_Image : clear implicits.
#[global] Arguments Registry : clear implicits.
#[global] Arguments notaryService : clear implicits.

(** *** Observing the outbound calls *)

Inductive Call : Type :=
| Call_NewRepoClient (imgRepo : string) (cfg : NotaryConfig)
| Call_GetTargetByName (name : string)
| Call_remote_Image
| Call_Manifest.

Section Traced.
Context {W : Type}.

Definition record {A : Type} (c : Call) (f : W -> A * W) (wl : W * list Call)
  : A * (W * list Call) :=
  let '(r, w') := f (fst wl) in (r, (w', snd wl ++ [c])).

Definition traced_client (c : NotaryRepoClient W) : NotaryRepoClient (W * list Call) :=
  {| GetTargetByName name := record (Call_GetTargetByName name) (GetTargetByName c name) |}.

Definition traced_factory (f : RepoFactory W) : RepoFactory (W * list Call) :=
  {| NewRepoClient imgRepo cfg wl :=
       match record (Call_NewRepoClient imgRepo cfg) (NewRepoClient f imgRepo cfg) wl with
       | (Ok c, wl') => (Ok (traced_client c), wl')
       | (Err e, wl') => (Err e, wl')
       end |}.

Definition traced_image (i : v1_Image W) : v1_Image (W * list Call) :=
  {| Manifest := record Call_Manifest (Manifest i) |}.

Definition traced_registry (r : Registry W) : Registry (W * list Call) :=
  {| Reference := Reference r;
     name_ParseReference := name_ParseReference r;
     remote_Image ref wl :=
       match record Call_remote_Image (remote_Image r ref) wl with
       | (Ok i, wl') => (Ok (traced_image i), wl')
       | (Err e, wl') => (Err e, wl')
       end;
     hex_DecodeString := hex_DecodeString r |}.

Definition traced_service (s : notaryService W) : notaryService (W * list Call) :=
  {| ServiceConfig_ := ServiceConfig_ s;
     RepoFactory_ := traced_factory (RepoFactory_ s) |}.

End Traced.

End Validate.

(** ** Test doubles for the validator's collaborators

    In the manner of the package's mock notary service: a factory and a
    registry with canned answers.  The world is the number of outbound
    requests served so far. *)

Module Mock.
Import Validate.

Definition client (answer : result TargetWithRole) : NotaryRepoClient nat :=
  {| GetTargetByName _ w := (answer, S w) |}.

Definition factory (answer : result (NotaryRepoClient nat)) : RepoFactory nat :=
  {| NewRepoClient _ _ w := (answer, S w) |}.

Definition fromHexChar (c : ascii) : option N :=
  let n := N_of_ascii c in
  if (48 <=? n)%N && (n <=? 57)%N then Some (n - 48)%N
  else if (97 <=? n)%N && (n <=? 102)%N then Some (n - 87)%N
  else if (65 <=? n)%N && (n <=? 70)%N then Some (n - 55)%N
  else None.

Definition ErrLength : error := errors_New "encoding/hex: odd length hex string".
Definition InvalidByteError : error := errors_New "encoding/hex: invalid byte".

(** A hexadecimal decoder standing in for [hex.DecodeString]. *)
Fixpoint DecodeString (s : string) : result (list byte) :=
  match s with
  | EmptyString => Ok []
  | String p EmptyString =>
      match fromHexChar p with
      | None => Err InvalidByteError
      | Some _ => Err ErrLength
      end
  | String p (String q rest) =>
      match fromHexChar p, fromHexChar q with
      | Some a, Some b =>
          match Byte.of_N (a * 16 + b), DecodeString rest with
          | Some x, Ok l => Ok (x :: l)
          | _, Err e => Err e
          | None, _ => Err InvalidByteError
          end
      | _, _ => Err InvalidByteError
      end
  end.

Definition image (hexdigest : string) : v1_Image nat :=
  {| Manifest w := (Ok {| Config_Digest_Hex := hexdigest |}, S w) |}.

(** A registry that serves every reference with the same manifest. *)
Definition registry (hexdigest : string) : Registry nat :=
  {| Reference := string;
     name_ParseReference s := Ok s;
     remote_Image _ w := (Ok (image hexdigest), S w);
     hex_DecodeString := DecodeString |}.

Definition target (hashes : gmap string (list byte)) : TargetWithRole :=
  {| Name := "v1"; Hashes := hashes; Length := 1024; Role := "targets" |}.

Definition service (allowed : list string) (f : RepoFactory nat) : notaryService nat :=
  NewImageValidator
    {| NotaryConfig_ := {| Url := "https://signing.example" |};
       AllowedRegistries := allowed |} f.

Definition deadbeef : list byte := [xde; xad; xbe; xef]%byte.

(** [TrustedImageHash] of [image_test.go], a sha256 digest, and its
    hexadecimal form as a manifest carries it. *)
Definition TrustedImageHash : list byte :=
  [xf3; x9b; x97; x9b; x23; x5e; xaf; xa4; x1e; x08; x49; x38; xe9; x6a; x09; x7c;
   x03; x2e; x24; x8d; x29; xe3; x96; x8f; xcf; xd2; x98; x1a; xbe; x5f; x11; xa6]%byte.
Definition TrustedImageHex : string :=
  "f39b979b235eafa41e084938e96a097c032e248d29e3968fcfd2981abe5f11a6".

(** A trust service that publishes one sha256 entry for every tag. *)
Definition signing (digest : list byte) : RepoFactory nat :=
  factory (Ok (client (Ok (target {[ "sha256" := digest ]})))).

Definition signing_with (hashes : gmap string (list byte)) : RepoFactory nat :=
  factory (Ok (client (Ok (target hashes)))).

Definition background : Context := {| ctx_Err := None; ctx_Deadline := None |}.

(** A context whose deadline has passed: [ctx.Err()] is
    [context.DeadlineExceeded]. *)
Definition expired : Context :=
  {| ctx_Err := Some context_DeadlineExceeded; ctx_Deadline := Some 0%Z |}.

End Mock.

(** ** Kubernetes API types used by package [certs]

    Go's [nil] is kept apart from an empty value, as [reflect.DeepEqual]
    does: a slice is [option (list _)], a pointer [option _], a map
    [option (gmap _ _)], [None] being [nil].  On these types
    [reflect.DeepEqual] is Leibniz equality. *)

Module corev1.
Definition GroupName : string := "".
Definition SchemeGroupVersion_Version : string := "v1".
Definition ResourcePods : string := "pods".
End corev1.

Module metav1.

Record TypeMeta : Type := {
  Kind : string;
  APIVersion : string;
}.

Record ObjectMeta : Type := {
  Name : string;
  GenerateName : string;
  Namespace : string;
  UID : string;
  ResourceVersion : string;
  Generation : Z;
  Labels : option (gmap string string);
  Annotations : option (gmap string string);
  Finalizers : option (list string);
}.

Record LabelSelectorRequirement : Type := {
  Key : string;
  Operator : string;
  Values : option (list string);
}.

Record LabelSelector : Type := {
  MatchLabels : option (gmap string string);
  MatchExpressions : option (list LabelSelectorRequirement);
}.

#[global] Instance TypeMeta_eq_dec : EqDecision TypeMeta.
Proof. solve_decision. Defined.
#[global] Instance ObjectMeta_eq_dec : EqDecision ObjectMeta.
Proof. solve_decision. Defined.
#[global] Instance LabelSelectorRequirement_eq_dec : EqDecision LabelSelectorRequirement.
Proof. solve_decision. Defined.
#[global] Instance LabelSelector_eq_dec : EqDecision LabelSelector.
Proof. solve_decision. Defined.

(** [ObjectMeta.DeepCopy()]: a copy that shares nothing with the
    original; as a value it is the original. *)
Definition DeepCopy (m : ObjectMeta) : ObjectMeta := m.

(** The zero [ObjectMeta] with only [Name] set. *)
Definition named (name : string) : ObjectMeta :=
  {| Name := name; GenerateName := ""; Namespace := ""; UID := "";
     ResourceVersion := ""; Generation := 0; Labels := None;
     Annotations := None; Finalizers := None |}.

Definition zeroTypeMeta : TypeMeta := {| Kind := ""; APIVersion := "" |}.

End metav1.

Module admissionregistrationv1.

Definition Fail : string := "Fail".
Definition Ignore : string := "Ignore".
Definition Exact : string := "Exact".
Definition Equivalent : string := "Equivalent".
Definition NeverReinvocationPolicy : string := "Never".
Definition IfNeededReinvocationPolicy : string := "IfNeeded".
Definition AllScopes : string := "*".
Definition SideEffectClassNone : string := "None".
Definition Create : string := "CREATE".
Definition Update : string := "UPDATE".

Record ServiceReference : Type := {
  Namespace : string;
  Name : string;
  Path : option string;
  Port : option Z;
}.

Record WebhookClientConfig : Type := {
  URL : option string;
  Service : option ServiceReference;
  CABundle : option (list byte);
}.

Record Rule : Type := {
  APIGroups : option (list string);
  APIVersions : option (list string);
  Resources : option (list string);
  Scope : option string;
}.

Record RuleWithOperations : Type := {
  Operations : option (list string);
  Rule_ : Rule;
}.

Record MutatingWebhook : Type := {
  mw_Name : string;
  mw_ClientConfig : WebhookClientConfig;
  mw_Rules : option (list RuleWithOperations);
  mw_FailurePolicy : option string;
  mw_MatchPolicy : option string;
  mw_NamespaceSelector : option metav1.LabelSelector;
  mw_ObjectSelector : option metav1.LabelSelector;
  mw_SideEffects : option string;
  mw_TimeoutSeconds : option Z;
  mw_AdmissionReviewVersions : option (list string);
  mw_ReinvocationPolicy : option string;
}.

Record ValidatingWebhook : Type := {
  vw_Name : string;
  vw_ClientConfig : WebhookClientConfig;
  vw_Rules : option (list RuleWithOperations);
  vw_FailurePolicy : option string;
  vw_MatchPolicy : option string;
  vw_NamespaceSelector : option metav1.LabelSelector;
  vw_ObjectSelector : option metav1.LabelSelector;
  vw_SideEffects : option string;
  vw_TimeoutSeconds : option Z;
  vw_AdmissionReviewVersions : option (list string);
}.

Record MutatingWebhookConfiguration : Type := {
  mwc_TypeMeta : metav1.TypeMeta;
  mwc_ObjectMeta : metav1.ObjectMeta;
  mwc_Webhooks : option (list MutatingWebhook);
}.

Record ValidatingWebhookConfiguration : Type := {
  vwc_TypeMeta : metav1.TypeMeta;
  vwc_ObjectMeta : metav1.ObjectMeta;
  vwc_Webhooks : option (list ValidatingWebhook);
}.

#[global] Instance ServiceReference_eq_dec : EqDecision ServiceReference.
Proof. solve_decision. Defined.
#[global] Instance WebhookClientConfig_eq_dec : EqDecision WebhookClientConfig.
Proof. solve_decision. Defined.
#[global] Instance Rule_eq_dec : EqDecision Rule.
Proof. solve_decision. Defined.
#[global] Instance RuleWithOperations_eq_dec : EqDecision RuleWithOperations.
Proof. solve_decision. Defined.
#[global] Instance MutatingWebhook_eq_dec : EqDecision MutatingWebhook.
Proof. solve_decision. Defined.
#[global] Instance ValidatingWebhook_eq_dec : EqDecision ValidatingWebhook.
Proof. solve_decision. Defined.
#[global] Instance MutatingWebhookConfiguration_eq_dec : EqDecision MutatingWebhookConfiguration.
Proof. solve_decision. Defined.
#[global] Instance ValidatingWebhookConfiguration_eq_dec : EqDecision ValidatingWebhookConfiguration.
Proof. solve_decision. Defined.

End admissionregistrationv1.

Module pointer.
Definition String (s : string) : option string := Some s.
Definition Int32 (i : Z) : option Z := Some i.
End pointer.

Module reflect.
(** [reflect.DeepEqual] on the API types above. *)
Definition DeepEqual {A : Type} `{EqDecision A} (x y : A) : bool := bool_decide (x = y).
End reflect.

(** ** Package [certs]: the webhook configuration reconciler *)

Module Certs.
Import admissionregistrationv1.
Export GoContext.

Definition WebHookType : Type := string.

Definition MutatingWebhook : WebHookType := "Mutating".
Definition ValidatingWebHook : WebHookType := "Validating".

Definition DefaultingWebhookName : string := "defaulting.webhook.warden.kyma-project.io".
Definition ValidationWebhookName : string := "validation.webhook.warden.kyma-project.io".

Definition WebhookTimeout : Z := 15.

Definition PodValidationPath : string := "/validation/pods".

(** Modelled from the spec: [WebhookConfig] is declared in a file of the
    package that is not at hand; it carries the CA bundle bytes, the
    target service namespace and the target service name, which are the
    three fields the builders read. *)
Record WebhookConfig : Type := {
  CABundel : option (list byte);
  ServiceName : string;
  ServiceNamespace : string;
}.

Record NamespacedName : Type := {
  nn_Namespace : string;
  nn_Name : string;
}.

(** The part of controller-runtime's [client.Client] that the reconciler
    uses.  Go has one [Get], [Create] and [Update] that dispatch on the
    type of the object; here each has one field per object type.  [Get]
    returns the object it would store through the pointer argument. *)
Record Client (W : Type) : Type := {
  Get_mutating : Context -> NamespacedName -> W -> result MutatingWebhookConfiguration * W;
  Create_mutating : Context -> MutatingWebhookConfiguration -> W -> option error * W;
  Update_mutating : Context -> MutatingWebhookConfiguration -> W -> option error * W;
  Get_validating : Context -> NamespacedName -> W -> result ValidatingWebhookConfiguration * W;
  Create_validating : Context -> ValidatingWebhookConfiguration -> W -> option error * W;
  Update_validating : Context -> ValidatingWebhookConfiguration -> W -> option error * W;
}.
#[global] Arguments Get_mutating {W} _ _ _ _.
#[global] Arguments Create_mutating {W} _ _ _ _.
#[global] Arguments Update_mutating {W} _ _ _ _.
#[global] Arguments Get_validating {W} _ _ _ _.
#[global] Arguments Create_validating {W} _ _ _ _.
#[global] Arguments Update_validating {W} _ _ _ _.

Section Reconciler.

(** [defaulting.WebhookPath], a constant of package [defaulting], which is
    not at hand. *)
Variable defaulting_WebhookPath : string.

Definition getFunctionMutatingWebhookCfg (config : WebhookConfig)
  : admissionregistrationv1.MutatingWebhook :=
  let failurePolicy := Fail in
  let matchPolicy := Exact in
  let reinvocationPolicy := NeverReinvocationPolicy in
  let scope := AllScopes in
  let sideEffects := SideEffectClassNone in
  {| mw_Name := DefaultingWebhookName;
     mw_AdmissionReviewVersions := Some ["v1beta1"; "v1"];
     mw_ClientConfig :=
       {| URL := None;
          CABundle := CABundel config;
          Service := Some {| Namespace := ServiceNamespace config;
                             Name := ServiceName config;
                             Path := pointer.String defaulting_WebhookPath;
                             Port := pointer.Int32 443 |} |};
     mw_FailurePolicy := Some failurePolicy;
     mw_MatchPolicy := Some matchPolicy;
     mw_ReinvocationPolicy := Some reinvocationPolicy;
     mw_Rules :=
       Some [ {| Rule_ := {| APIGroups := Some [corev1.GroupName];
                             APIVersions := Some [corev1.SchemeGroupVersion_Version];
                             Resources := Some [corev1.ResourcePods];
                             Scope := Some scope |};
                 Operations := Some [Create; Update] |} ];
     mw_NamespaceSelector := None;
     mw_ObjectSelector := None;
     mw_SideEffects := Some sideEffects;
     mw_TimeoutSeconds := pointer.Int32 WebhookTimeout |}.

Definition createMutatingWebhookConfiguration (config : WebhookConfig)
  : MutatingWebhookConfiguration :=
  {| mwc_TypeMeta := metav1.zeroTypeMeta;
     mwc_ObjectMeta := metav1.named DefaultingWebhookName;
     mwc_Webhooks := Some [getFunctionMutatingWebhookCfg config] |}.

Definition createValidatingWebhookConfiguration (config : WebhookConfig)
  : ValidatingWebhookConfiguration :=
  let failurePolicy := Ignore in
  let matchPolicy := Exact in
  let scope := AllScopes in
  let sideEffects := SideEffectClassNone in
  {| vwc_TypeMeta := metav1.zeroTypeMeta;
     vwc_ObjectMeta := metav1.named ValidationWebhookName;
     vwc_Webhooks :=
       Some [ {| vw_Name := ValidationWebhookName;
                 vw_AdmissionReviewVersions := Some ["v1beta1"; "v1"];
                 vw_ClientConfig :=
                   {| URL := None;
                      CABundle := CABundel config;
                      Service := Some {| Namespace := ServiceNamespace config;
                                         Name := ServiceName config;
                                         Path := pointer.String PodValidationPath;
                                         Port := pointer.Int32 443 |} |};
                 vw_FailurePolicy := Some failurePolicy;
                 vw_MatchPolicy := Some matchPolicy;
                 vw_Rules :=
                   Some [ {| Rule_ := {| APIGroups := Some [corev1.GroupName];
                                         APIVersions := Some [corev1.SchemeGroupVersion_Version];
                                         Resources := Some [corev1.ResourcePods];
                                         Scope := Some scope |};
                             Operations := Some [Create; Update] |} ];
                 vw_NamespaceSelector := None;
                 vw_ObjectSelector := None;
                 vw_SideEffects := Some sideEffects;
                 vw_TimeoutSeconds := pointer.Int32 WebhookTimeout |} ] |}.

(** [ensuredMwhc.ObjectMeta = *mwhc.ObjectMeta.DeepCopy()]. *)
Definition mwc_set_ObjectMeta (o : MutatingWebhookConfiguration) (m : metav1.ObjectMeta)
  : MutatingWebhookConfiguration :=
  {| mwc_TypeMeta := mwc_TypeMeta o; mwc_ObjectMeta := m; mwc_Webhooks := mwc_Webhooks o |}.

Definition vwc_set_ObjectMeta (o : ValidatingWebhookConfiguration) (m : metav1.ObjectMeta)
  : ValidatingWebhookConfiguration :=
  {| vwc_TypeMeta := vwc_TypeMeta o; vwc_ObjectMeta := m; vwc_Webhooks := vwc_Webhooks o |}.

Context {W : Type}.

Definition ensureMutatingWebhookConfigFor (ctx : Context) (client : Client W)
    (config : WebhookConfig) (w : W) : option error * W :=
  match Get_mutating client ctx {| nn_Namespace := ""; nn_Name := DefaultingWebhookName |} w with
  | (Err err, w1) =>
      if IsNotFound err then
        let '(created, w2) :=
          Create_mutating client ctx (createMutatingWebhookConfiguration config) w1 in
        (Wrap created "while creating webhook mutation configuration", w2)
      else
        (Wrap (Some err)
           ("failed to get defaulting MutatingWebhookConfiguration: " +:+ DefaultingWebhookName),
         w1)
  | (Ok mwhc, w1) =>
      let ensuredMwhc := createMutatingWebhookConfiguration config in
      if negb (reflect.DeepEqual (mwc_Webhooks ensuredMwhc) (mwc_Webhooks mwhc)) then
        let ensuredMwhc :=
          mwc_set_ObjectMeta ensuredMwhc (metav1.DeepCopy (mwc_ObjectMeta mwhc)) in
        let '(updated, w2) := Update_mutating client ctx ensuredMwhc w1 in
        (Wrap updated "while updating webhook mutation configuration", w2)
      else (None, w1)
  end.

Definition ensureValidatingWebhookConfigFor (ctx : Context) (client : Client W)
    (config : WebhookConfig) (w : W) : option error * W :=
  match Get_validating client ctx {| nn_Namespace := ""; nn_Name := ValidationWebhookName |} w with
  | (Err err, w1) =>
      if IsNotFound err then
        Create_validating client ctx (createValidatingWebhookConfiguration config) w1
      else
        (Wrap (Some err)
           ("failed to get validation ValidatingWebhookConfiguration: " +:+ ValidationWebhookName),
         w1)
  | (Ok vwhc, w1) =>
      let ensuredVwhc := createValidatingWebhookConfiguration config in
      if negb (reflect.DeepEqual (vwc_Webhooks ensuredVwhc) (vwc_Webhooks vwhc)) then
        let ensuredVwhc :=
          vwc_set_ObjectMeta ensuredVwhc (metav1.DeepCopy (vwc_ObjectMeta vwhc)) in
        Update_validating client ctx ensuredVwhc w1
      else (None, w1)
  end.

Definition EnsureWebhookConfigurationFor (ctx : Context) (client : Client W)
    (config : WebhookConfig) (wt : WebHookType) (w : W) : option error * W :=
  if bool_decide (wt = MutatingWebhook) then ensureMutatingWebhookConfigFor ctx client config w
  else ensureValidatingWebhookConfigFor ctx client config w.

End Reconciler.

(** *** Observing the requests to the API server *)

Inductive Request : Type :=
| Request_Get_mutating (key : NamespacedName)
| Request_Create_mutating (obj : MutatingWebhookConfiguration)
| Request_Update_mutating (obj : MutatingWebhookConfiguration)
| Request_Get_validating (key : NamespacedName)
| Request_Create_validating (obj : ValidatingWebhookConfiguration)
| Request_Update_validating (obj : ValidatingWebhookConfiguration).

Definition is_write (r : Request) : bool :=
  match r with
  | Request_Get_mutating _ | Request_Get_validating _ => false
  | _ => true
  end.

Section Traced.
Context {W : Type}.

Definition record {A : Type} (r : Request) (f : W -> A * W) (wl : W * list Request)
  : A * (W * list Request) :=
  let '(a, w') := f (fst wl) in (a, (w', snd wl ++ [r])).

Definition traced (client : Client W) : Client (W * list Request) :=
  {| Get_mutating ctx key := record (Request_Get_mutating key) (Get_mutating client ctx key);
     Create_mutating ctx obj := record (Request_Create_mutating obj) (Create_mutating client ctx obj);
     Update_mutating ctx obj := record (Request_Update_mutating obj) (Update_mutating client ctx obj);
     Get_validating ctx key := record (Request_Get_validating key) (Get_validating client ctx key);
     Create_validating ctx obj :=
       record (Request_Create_validating obj) (Create_validating client ctx obj);
     Update_validating ctx obj :=
       record (Request_Update_validating obj) (Update_validating client ctx obj) |}.

End Traced.

(** The keys under which the two objects are fetched,
    [types.NamespacedName{Name: ...}]. *)
Definition mutating_key : NamespacedName :=
  {| nn_Namespace := ""; nn_Name := DefaultingWebhookName |}.
Definition validating_key : NamespacedName :=
  {| nn_Namespace := ""; nn_Name := ValidationWebhookName |}.

End Certs.

(** ** A test double for the API server

    An in-memory object store keyed by name that hands a stored object
    back as it was written, with no serialisation in between: [Get] of
    an absent name is a [NotFound] status error, [Create] of a present
    name an [AlreadyExists] one, [Update] replaces a present object. *)

Module FakeCluster.
Import admissionregistrationv1 Certs.

Record Cluster : Type := {
  mutating : gmap string MutatingWebhookConfiguration;
  validating : gmap string ValidatingWebhookConfiguration;
}.

Definition empty : Cluster := {| mutating := ∅; validating := ∅ |}.

Definition NotFound (name : string) : error :=
  StatusError StatusReasonNotFound (name +:+ " not found").
Definition AlreadyExists (name : string) : error :=
  StatusError "AlreadyExists" (name +:+ " already exists").

Definition client : Client Cluster :=
  {| Get_mutating _ key c :=
       match mutating c !! nn_Name key with
       | Some o => (Ok o, c)
       | None => (Err (NotFound (nn_Name key)), c)
       end;
     Create_mutating _ obj c :=
       let name := metav1.Name (mwc_ObjectMeta obj) in
       match mutating c !! name with
       | Some _ => (Some (AlreadyExists name), c)
       | None => (None, {| mutating := <[name := obj]> (mutating c);
                           validating := validating c |})
       end;
     Update_mutating _ obj c :=
       let name := metav1.Name (mwc_ObjectMeta obj) in
       match mutating c !! name with
       | Some _ => (None, {| mutating := <[name := obj]> (mutating c);
                             validating := validating c |})
       | None => (Some (NotFound name), c)
       end;
     Get_validating _ key c :=
       match validating c !! nn_Name key with
       | Some o => (Ok o, c)
       | None => (Err (NotFound (nn_Name key)), c)
       end;
     Create_validating _ obj c :=
       let name := metav1.Name (vwc_ObjectMeta obj) in
       match validating c !! name with
       | Some _ => (Some (AlreadyExists name), c)
       | None => (None, {| mutating := mutating c;
                           validating := <[name := obj]> (validating c) |})
       end;
     Update_validating _ obj c :=
       let name := metav1.Name (vwc_ObjectMeta obj) in
       match validating c !! name with
       | Some _ => (None, {| mutating := mutating c;
                             validating := <[name := obj]> (validating c) |})
       | None => (Some (NotFound name), c)
       end |}.

(** An API server that answers every read with [err] and accepts every
    write. *)
Definition failing (err : error) : Client Cluster :=
  {| Get_mutating _ _ c := (Err err, c);
     Create_mutating _ _ c := (None, c);
     Update_mutating _ _ c := (None, c);
     Get_validating _ _ c := (Err err, c);
     Create_validating _ _ c := (None, c);
     Update_validating _ _ c := (None, c) |}.

Definition Unavailable : error :=
  StatusError "ServiceUnavailable" "the server is currently unable to handle the request".

Definition WebhookPath : string := "/defaulting/pods".

Definition config (ca : list byte) : WebhookConfig :=
  {| CABundel := Some ca; ServiceName := "warden-admission"; ServiceNamespace := "kyma-system" |}.

(** Metadata as the API server hands it back for a stored object. *)
Definition live_meta (name : string) : metav1.ObjectMeta :=
  {| metav1.Name := name; metav1.GenerateName := ""; metav1.Namespace := "";
     metav1.UID := "0b5c9f0e"; metav1.ResourceVersion := "4711"; metav1.Generation := 3;
     metav1.Labels := Some {[ "app" := "warden" ]}; metav1.Annotations := None;
     metav1.Finalizers := None |}.

(** A cluster that holds both objects as built from [cfg], with server
    metadata. *)
Definition installed (cfg : WebhookConfig) : Cluster :=
  {| mutating :=
       {[ DefaultingWebhookName :=
            mwc_set_ObjectMeta (createMutatingWebhookConfiguration WebhookPath cfg)
              (live_meta DefaultingWebhookName) ]};
     validating :=
       {[ ValidationWebhookName :=
            vwc_set_ObjectMeta (createValidatingWebhookConfiguration cfg)
              (live_meta ValidationWebhookName) ]} |}.

End FakeCluster.

(** ** Names for the parts of a reference and for the validator's errors *)

Module Taxonomy.
Import GoStrings Validate.

(** The two parts of a reference, [split[0]] and [split[1]]. *)
Definition repository_of (image : string) : string := nth 0 (Split image tagDelim) "".
Definition tag_of (image : string) : string := nth 1 (Split image tagDelim) "".

Definition MalformedReference : error := errors_New "image name is not formatted correctly".
Definition EmptyArguments : error := errors_New "empty arguments provided".
Definition MissingHash : error := errors_New "image hash is missing".
Definition AmbiguousHash : error := errors_New "more than one hash for image".
Definition HashMismatch : error := errors_New "unexpected image hash value".

(** [s.AllowedRegistries = allowedRegistries], as the package's tests
    set it. *)
Definition with_AllowedRegistries {W : Type} (s : notaryService W)
    (allowedRegistries : list string) : notaryService W :=
  {| ServiceConfig_ := {| NotaryConfig_ := NotaryConfig_ (ServiceConfig_ s);
                          AllowedRegistries := allowedRegistries |};
     RepoFactory_ := RepoFactory_ s |}.

(** What the trust repository answers for [(imgRepo, imgTag)]: the two
    collaborator calls of [getNotaryImageDigestHash], client construction
    and target lookup, without the checks around them. *)
Definition trust_lookup {W : Type} (s : notaryService W) (imgRepo imgTag : string) (w : W)
  : result TargetWithRole * W :=
  match NewRepoClient (RepoFactory_ s) imgRepo (NotaryConfig_ (ServiceConfig_ s)) w with
  | (Err err, w1) => (Err err, w1)
  | (Ok c, w1) => GetTargetByName c imgTag w1
  end.

(** A step returns no digest. *)
Definition no_digest {W : Type} (r : result (list byte) * W) : Prop :=
  forall digest, fst r <> Ok digest.

(** The three failures that the trust lookup step raises itself: an empty
    repository or tag, a returned target without hash entry, a returned
    target with more than one. *)
Definition own_failure {W : Type} (s : notaryService W) (imgRepo imgTag : string) (w : W)
  : Prop :=
  imgRepo = "" \/ imgTag = "" \/
  exists target w', trust_lookup s imgRepo imgTag w = (Ok target, w') /\
                    (size (Hashes target) = 0 \/ 1 < size (Hashes target)).

(** The failures that the step hands on from the trust repository: the
    client cannot be constructed or the target lookup fails. *)
Definition lookup_failure {W : Type} (s : notaryService W) (imgRepo imgTag : string) (w : W)
  : Prop :=
  exists err w', trust_lookup s imgRepo imgTag w = (Err err, w').

End Taxonomy.

(** ** Names for the requests a run may make *)

Module Observations.
Import GoStrings Validate Taxonomy admissionregistrationv1 Certs.

(** The calls to the trust repository that [Validate] makes for a
    reference, in order: client construction for the repository part,
    target lookup for the tag part. *)
Definition trust_calls {W : Type} (s : notaryService W) (image : string) : list Call :=
  [Call_NewRepoClient (repository_of image) (NotaryConfig_ (ServiceConfig_ s));
   Call_GetTargetByName (tag_of image)].

(** The calls to the registry that [getImageDigestHash] makes, in order. *)
Definition registry_calls : list Call := [Call_remote_Image; Call_Manifest].

(** The request concerns a mutating webhook configuration. *)
Definition request_is_mutating (r : Request) : bool :=
  match r with
  | Request_Get_mutating _ | Request_Create_mutating _ | Request_Update_mutating _ => true
  | _ => false
  end.

(** The request writes an object whose webhook list is the one built
    from [config]. *)
Definition writes_desired (path : string) (config : WebhookConfig) (r : Request) : Prop :=
  match r with
  | Request_Create_mutating obj | Request_Update_mutating obj =>
      mwc_Webhooks obj = mwc_Webhooks (createMutatingWebhookConfiguration path config)
  | Request_Create_validating obj | Request_Update_validating obj =>
      vwc_Webhooks obj = vwc_Webhooks (createValidatingWebhookConfiguration config)
  | _ => False
  end.

(** The client answered the write request [r], issued in world [w],
    with [nil], leaving world [w']. *)
Inductive accepted {W : Type} (client : Client W) (ctx : Context)
  : Request -> W -> W -> Prop :=
| accepted_Create_mutating obj w w' :
    Create_mutating client ctx obj w = (None, w') ->
    accepted client ctx (Request_Create_mutating obj) w w'
| accepted_Update_mutating obj w w' :
    Update_mutating client ctx obj w = (None, w') ->
    accepted client ctx (Request_Update_mutating obj) w w'
| accepted_Create_validating obj w w' :
    Create_validating client ctx obj w = (None, w') ->
    accepted client ctx (Request_Create_validating obj) w w'
| accepted_Update_validating obj w w' :
    Update_validating client ctx obj w = (None, w') ->
    accepted client ctx (Request_Update_validating obj) w w'.

(** The fetch for kind [wt] in world [w] found an object whose webhook
    list is the one built from [config], leaving world [w']. *)
Definition found_in_sync {W : Type} (path : string) (config : WebhookConfig)
    (client : Client W) (ctx : Context) (wt : WebHookType) (w w' : W) : Prop :=
  if bool_decide (wt = MutatingWebhook) then
    exists live, Get_mutating client ctx mutating_key w = (Ok live, w') /\
                 mwc_Webhooks live
                 = mwc_Webhooks (createMutatingWebhookConfiguration path config)
  else
    exists live, Get_validating client ctx validating_key w = (Ok live, w') /\
                 vwc_Webhooks live
                 = vwc_Webhooks (createValidatingWebhookConfiguration config).

(** The fetch request for kind [wt]. *)
Definition fetch_of (wt : WebHookType) : Request :=
  if bool_decide (wt = MutatingWebhook) then Request_Get_mutating mutating_key
  else Request_Get_validating validating_key.

End Observations.

(** * Properties *)

(** ** [strings.Split], [strings.Count], [strings.HasPrefix] *)

Module GoStringsFacts.
Import GoStrings.

Lemma Split_not_nil s sep : Split s sep <> [].
Proof.
  induction s as [|c s IH]; simpl; [discriminate|].
  destruct (Ascii.eqb c sep); [discriminate|].
  destruct (Split s sep); [contradiction | discriminate].
Qed.

(** [Split] returns one piece more than there are separators. *)
Lemma Split_length s sep : length (Split s sep) = S (Count s sep).
Proof.
  induction s as [|c s IH]; simpl; [reflexivity|].
  destruct (Ascii.eqb c sep); simpl; [now rewrite IH|].
  pose proof (Split_not_nil s sep) as Hne.
  destruct (Split s sep); [contradiction | exact IH].
Qed.

Lemma Split_no_sep s sep : Count s sep = 0 -> Split s sep = [s].
Proof.
  induction s as [|c s IH]; simpl; [reflexivity|].
  destruct (Ascii.eqb c sep); simpl; [discriminate|].
  intros H. now rewrite (IH H).
Qed.

Lemma Split_app repo rest sep :
  Count repo sep = 0 ->
  Split (repo +:+ String sep rest) sep = repo :: Split rest sep.
Proof.
  induction repo as [|c repo IH]; simpl.
  - intros _. now rewrite Ascii.eqb_refl.
  - destruct (Ascii.eqb c sep); simpl; [discriminate|].
    intros H. now rewrite (IH H).
Qed.

(** A reference [repo:tag] with no further separator splits into exactly
    [repo] and [tag]. *)
Lemma Split_repo_tag repo tag sep :
  Count repo sep = 0 -> Count tag sep = 0 ->
  Split (repo +:+ String sep tag) sep = [repo; tag].
Proof.
  intros Hr Ht. rewrite (Split_app _ _ _ Hr). now rewrite (Split_no_sep _ _ Ht).
Qed.

(** The pieces contain no separator, and joining them with the separator
    gives the string back. *)
Lemma Split_two_inv s sep a b :
  Split s sep = [a; b] ->
  s = a +:+ String sep b /\ Count a sep = 0 /\ Count b sep = 0.
Proof.
  revert a. induction s as [|c s IH]; simpl; intros a; [discriminate|].
  destruct (Ascii.eqb_spec c sep) as [->|Hne].
  - intros H. injection H as <- H.
    assert (Hc : Count s sep = 0).
    { pose proof (Split_length s sep) as HL. rewrite H in HL. simpl in HL. lia. }
    rewrite (Split_no_sep _ _ Hc) in H. injection H as <-.
    split; [reflexivity | split; [reflexivity | exact Hc]].
  - destruct (Split s sep) as [|p [|q rest]] eqn:E; try discriminate.
    intros H. injection H as Ha Hb Hrest. subst a b rest.
    destruct (IH p eq_refl) as (-> & Hp & Hq).
    split; [reflexivity | split; [|exact Hq]]. simpl.
    destruct (Ascii.eqb_spec c sep); [contradiction | exact Hp].
Qed.

Lemma Split_two_iff s sep :
  length (Split s sep) = 2 <-> Count s sep = 1.
Proof. rewrite Split_length. lia. Qed.

Lemma HasPrefix_empty s : HasPrefix s "" = true.
Proof. destruct s; reflexivity. Qed.

Lemma HasPrefix_app p s : HasPrefix (p +:+ s) p = true.
Proof.
  induction p as [|c p IH]; simpl; [apply HasPrefix_empty|].
  now rewrite Ascii.eqb_refl.
Qed.

Lemma HasPrefix_spec s p : HasPrefix s p = true <-> exists rest, s = p +:+ rest.
Proof.
  split.
  - revert s. induction p as [|c p IH]; intros s; simpl.
    + intros _. now exists s.
    + destruct s as [|d s]; [discriminate|].
      intros H. apply andb_prop in H as [Hc Hp].
      apply Ascii.eqb_eq in Hc as ->.
      destruct (IH _ Hp) as [rest ->]. now exists rest.
  - intros [rest ->]. apply HasPrefix_app.
Qed.

End GoStringsFacts.

(** ** [subtle.ConstantTimeCompare] *)

Module SubtleFacts.
Import Subtle.

Lemma byte_val_range b : (0 <= byte_val b < 2 ^ 8)%Z.
Proof.
  unfold byte_val. pose proof (Byte.to_N_bounded b) as H.
  change (2 ^ 8)%Z with 256%Z. lia.
Qed.

Lemma byte_val_inj a b : byte_val a = byte_val b -> a = b.
Proof.
  unfold byte_val. intros H. apply N2Z.inj in H.
  pose proof (Byte.of_to_N a) as Ha. rewrite H, Byte.of_to_N in Ha.
  now injection Ha.
Qed.

Lemma below_pow2_log2 z n :
  (0 < n)%Z -> (0 <= z)%Z -> (z < 2 ^ n <-> Z.log2 z < n)%Z.
Proof.
  intros Hn Hz. destruct (Z.eq_dec z 0%Z) as [->|Hnz].
  - simpl. split; intros _; [exact Hn | apply Z.pow_pos_nonneg; lia].
  - apply Z.log2_lt_pow2. lia.
Qed.

Lemma lor_below a b n :
  (0 < n)%Z -> (0 <= a < 2 ^ n)%Z -> (0 <= b < 2 ^ n)%Z ->
  (0 <= Z.lor a b < 2 ^ n)%Z.
Proof.
  intros Hn [Ha0 Ha] [Hb0 Hb].
  assert (H0 : (0 <= Z.lor a b)%Z) by (apply Z.lor_nonneg; auto).
  split; [exact H0|].
  apply below_pow2_log2; [exact Hn | exact H0 |].
  rewrite Z.log2_lor by assumption.
  apply below_pow2_log2 in Ha; [|exact Hn|exact Ha0].
  apply below_pow2_log2 in Hb; [|exact Hn|exact Hb0].
  lia.
Qed.

Lemma lxor_below a b n :
  (0 < n)%Z -> (0 <= a < 2 ^ n)%Z -> (0 <= b < 2 ^ n)%Z ->
  (0 <= Z.lxor a b < 2 ^ n)%Z.
Proof.
  intros Hn [Ha0 Ha] [Hb0 Hb].
  assert (H0 : (0 <= Z.lxor a b)%Z) by (apply Z.lxor_nonneg; tauto).
  split; [exact H0|].
  apply below_pow2_log2; [exact Hn | exact H0 |].
  pose proof (Z.log2_lxor a b Ha0 Hb0) as Hl.
  apply below_pow2_log2 in Ha; [|exact Hn|exact Ha0].
  apply below_pow2_log2 in Hb; [|exact Hn|exact Hb0].
  lia.
Qed.

(** One step of the accumulator: it stays a byte, and it stays zero
    exactly when it was zero and the two bytes agree. *)
Lemma accumulate_step v a b :
  (0 <= v < 2 ^ 8)%Z ->
  let v' := uint8 (Z.lor v (Z.lxor (byte_val a) (byte_val b))) in
  (0 <= v' < 2 ^ 8)%Z /\ (v' = 0%Z <-> v = 0%Z /\ a = b).
Proof.
  intros Hv v'.
  pose proof (lxor_below _ _ 8 eq_refl (byte_val_range a) (byte_val_range b)) as Hx.
  pose proof (lor_below _ _ 8 eq_refl Hv Hx) as Ho.
  assert (Hv' : v' = Z.lor v (Z.lxor (byte_val a) (byte_val b))).
  { unfold v', uint8. apply Z.mod_small. exact Ho. }
  rewrite Hv'. split; [exact Ho|].
  rewrite Z.lor_eq_0_iff. split.
  - intros [H1 H2]. split; [exact H1|]. apply byte_val_inj. now apply Z.lxor_eq.
  - intros [H1 ->]. split; [exact H1 | apply Z.lxor_nilpotent].
Qed.

Lemma compare_loop_fst i x y v seen :
  length x = length y -> (0 <= v < 2 ^ 8)%Z ->
  let v' := fst (compare_loop i x y v seen) in
  (0 <= v' < 2 ^ 8)%Z /\ (v' = 0%Z <-> v = 0%Z /\ x = y).
Proof.
  revert i y v seen. induction x as [|a x IH]; intros i [|b y] v seen Hlen Hv;
    simpl in *; try discriminate.
  - split; [exact Hv | tauto].
  - destruct (accumulate_step v a b Hv) as [Hr Hz].
    specialize (IH (S i) y _ (seen ++ [i]) ltac:(lia) Hr) as [IHr IHz].
    split; [exact IHr|]. rewrite IHz, Hz. split.
    + intros [[-> ->] ->]. auto.
    + intros [-> H]. injection H as -> ->. auto.
Qed.

(** The loop reads the positions [i, i+1, ...] of the shorter operand,
    whatever the bytes are. *)
Lemma compare_loop_snd i x y v seen :
  snd (compare_loop i x y v seen) = seen ++ seq i (min (length x) (length y)).
Proof.
  revert i y v seen. induction x as [|a x IH]; intros i [|b y] v seen; simpl;
    try (now rewrite app_nil_r).
  rewrite IH, <- app_assoc. reflexivity.
Qed.

Lemma ConstantTimeByteEq_zero v :
  (0 <= v < 2 ^ 8)%Z ->
  ConstantTimeByteEq v 0 = if decide (v = 0%Z) then 1%Z else 0%Z.
Proof.
  intros Hv. unfold ConstantTimeByteEq, uint32. rewrite Z.lxor_0_r.
  change (2 ^ 8)%Z with 256%Z in Hv.
  rewrite (Z.mod_small v) by (change (2 ^ 32)%Z with 4294967296%Z; lia).
  rewrite Z.shiftr_div_pow2 by lia.
  destruct (decide (v = 0%Z)) as [->|Hne]; [reflexivity|].
  rewrite (Z.mod_small (v - 1)) by (change (2 ^ 32)%Z with 4294967296%Z; lia).
  apply Z.div_small. change (2 ^ 31)%Z with 2147483648%Z. lia.
Qed.

(** [ConstantTimeCompare] returns 1 on equal byte sequences and 0 on all
    others. *)
Lemma ConstantTimeCompare_spec x y :
  ConstantTimeCompare x y = if decide (x = y) then 1%Z else 0%Z.
Proof.
  unfold ConstantTimeCompare, ConstantTimeCompare_inspect.
  destruct (Nat.eqb_spec (length x) (length y)) as [Hlen|Hlen]; simpl.
  - pose proof (compare_loop_fst 0 x y 0%Z [] Hlen ltac:(lia)) as [Hr Hz].
    destruct (compare_loop 0 x y 0%Z []) as [v seen]; simpl in *.
    rewrite (ConstantTimeByteEq_zero v Hr).
    destruct (decide (v = 0%Z)) as [Hv|Hv], (decide (x = y)) as [Hxy|Hxy];
      try reflexivity; exfalso; tauto.
  - destruct (decide (x = y)) as [->|_]; [contradiction | reflexivity].
Qed.

Lemma inspected_same_length x y :
  length x = length y -> inspected x y = seq 0 (length x).
Proof.
  intros Hlen. unfold inspected, ConstantTimeCompare_inspect.
  rewrite (proj2 (Nat.eqb_eq _ _) Hlen). simpl.
  pose proof (compare_loop_snd 0 x y 0%Z []) as Hs.
  destruct (compare_loop 0 x y 0%Z []) as [v seen]; simpl in *.
  rewrite Hs, <- Hlen, Nat.min_id. reflexivity.
Qed.

Lemma inspected_other_length x y :
  length x <> length y -> inspected x y = [].
Proof.
  intros Hlen. unfold inspected, ConstantTimeCompare_inspect.
  now rewrite (proj2 (Nat.eqb_neq _ _) Hlen).
Qed.

End SubtleFacts.

Example Split_examples :
  GoStrings.Split "" ":" = [""] /\
  GoStrings.Split "makapaka" ":" = ["makapaka"] /\
  GoStrings.Split ":" ":" = [""; ""] /\
  GoStrings.Split "nginx:latest" ":" = ["nginx"; "latest"] /\
  GoStrings.Split "repo:port/image-name:tag" ":" = ["repo"; "port/image-name"; "tag"].
Proof. repeat split; reflexivity. Qed.

Example Mock_DecodeString :
  Mock.DecodeString "deadBEEF" = Ok Mock.deadbeef /\
  Mock.DecodeString "abc" = Err Mock.ErrLength /\
  Mock.DecodeString "zz" = Err Mock.InvalidByteError.
Proof. repeat split. Qed.

(** The package's own test cases, run on the embedding. *)
Example Test_Validate_ProperImage_ShouldPass :
  Validate.Validate (Mock.registry "deadbeef") (Mock.service [] (Mock.signing Mock.deadbeef))
    Mock.background "eu.gcr.io/kyma-project/function-controller:PR-16481" 0
  = (None, 4).
Proof. vm_compute. reflexivity. Qed.

Example Test_Validate_InvalidImageName_ShouldReturnError :
  let s := Mock.service [] (Mock.signing Mock.deadbeef) in
  let r := Mock.registry "deadbeef" in
  fst (Validate.Validate r s Mock.background "makapaka" 0)
    = Some (errors_New "image name is not formatted correctly") /\
  fst (Validate.Validate r s Mock.background ":" 0)
    = Some (errors_New "empty arguments provided") /\
  fst (Validate.Validate r s Mock.background "repo:port/image-name:tag" 0)
    = Some (errors_New "image name is not formatted correctly").
Proof. vm_compute. repeat split. Qed.

Example Test_Validate_ImageWithDifferentHashInNotary_ShouldReturnError :
  Validate.Validate (Mock.registry "deadbeee") (Mock.service [] (Mock.signing Mock.deadbeef))
    Mock.background "eu.gcr.io/kyma-project/function-controller:PR-16481" 0
  = (Some (errors_New "unexpected image hash value"), 4).
Proof. vm_compute. reflexivity. Qed.

(** ** [notaryService.Validate] *)

Module ValidateFacts.
Import GoStrings GoStringsFacts Subtle SubtleFacts Validate Taxonomy.

Lemma one_delimiter_split image :
  Count image tagDelim = 1 ->
  Split image tagDelim = [repository_of image; tag_of image].
Proof.
  intros H. apply Split_two_iff in H. unfold repository_of, tag_of.
  destruct (Split image tagDelim) as [|a [|b [|c l]]]; simpl in *; try discriminate.
  reflexivity.
Qed.

Lemma isImageAllowed_loop_true allowedRegistries imgRepo :
  isImageAllowed_loop allowedRegistries imgRepo = true <->
  exists allowed, In allowed allowedRegistries /\ HasPrefix imgRepo allowed = true.
Proof.
  induction allowedRegistries as [|a l IH]; simpl.
  - split; [discriminate | intros (? & [] & _)].
  - destruct (HasPrefix imgRepo a) eqn:E.
    + split; [intros _; exists a; auto | reflexivity].
    + rewrite IH. split.
      * intros (x & Hx & Hp). exists x. auto.
      * intros (x & [->|Hx] & Hp); [congruence | exists x; auto].
Qed.

(** The allow-list decision depends on the entries, not on their order. *)
Lemma isImageAllowed_loop_Permutation l l' imgRepo :
  Permutation l l' -> isImageAllowed_loop l imgRepo = isImageAllowed_loop l' imgRepo.
Proof.
  intros HP. apply eq_true_iff_eq. rewrite !isImageAllowed_loop_true.
  split; intros (x & Hx & Hp); exists x; split; auto.
  - eapply Permutation_in; eauto.
  - eapply Permutation_in; [symmetry|]; eauto.
Qed.

Section Generic.
Context {W : Type}.
Variable registry : Registry W.
Variable s : notaryService W.

(** [Validate] on a reference that splits in two. *)
Lemma Validate_two_parts ctx image imgRepo imgTag (w : W) :
  Split image tagDelim = [imgRepo; imgTag] ->
  Validate registry s ctx image w =
    if isImageAllowed s imgRepo then (None, w)
    else
      match getNotaryImageDigestHash s ctx imgRepo imgTag w with
      | (Err err, w1) => (Some err, w1)
      | (Ok expectedShaBytes, w1) =>
          match getImageDigestHash registry s image w1 with
          | (Err err, w2) => (Some err, w2)
          | (Ok shaBytes, w2) =>
              if decide (shaBytes = expectedShaBytes) then (None, w2)
              else (Some HashMismatch, w2)
          end
      end.
Proof.
  intros Hsplit. unfold Validate. rewrite Hsplit. simpl.
  destruct (isImageAllowed s imgRepo); [reflexivity|].
  destruct (getNotaryImageDigestHash s ctx imgRepo imgTag w) as [[expected|err] w1];
    [|reflexivity].
  destruct (getImageDigestHash registry s image w1) as [[actual|err] w2]; [|reflexivity].
  rewrite ConstantTimeCompare_spec.
  destruct (decide (actual = expected)); reflexivity.
Qed.

(** The context is a dead parameter of [getNotaryImageDigestHash] and is
    not handed to [getImageDigestHash] at all. *)
Lemma getNotaryImageDigestHash_ignores_ctx ctx ctx' imgRepo imgTag (w : W) :
  getNotaryImageDigestHash s ctx imgRepo imgTag w =
  getNotaryImageDigestHash s ctx' imgRepo imgTag w.
Proof. reflexivity. Qed.

Lemma Validate_ignores_ctx ctx ctx' image (w : W) :
  Validate registry s ctx image w = Validate registry s ctx' image w.
Proof. reflexivity. Qed.

End Generic.

(** With exactly one key, the range loop ends on that key and the lookup
    gives its digest. *)
Lemma single_hash (hashes : gmap string (list byte)) :
  size hashes = 1 ->
  exists key digest, hashes = {[ key := digest ]} /\
                     index_Hashes hashes (last_key hashes) = digest.
Proof.
  intros Hsize. rewrite <- length_map_to_list in Hsize.
  destruct (map_to_list hashes) as [|[key digest] [|? ?]] eqn:E; simpl in Hsize;
    try discriminate.
  exists key, digest.
  assert (Hm : hashes = {[ key := digest ]}).
  { rewrite <- (list_to_map_to_list hashes), E. simpl. now rewrite insert_empty. }
  split; [exact Hm|].
  unfold last_key, index_Hashes. rewrite E. simpl.
  rewrite Hm. now rewrite lookup_singleton_eq.
Qed.

Lemma length_zero (str : string) : (String.length str =? 0)%nat = true <-> str = "".
Proof. destruct str; simpl; split; intros H; congruence. Qed.

Lemma empty_arguments imgRepo imgTag :
  (String.length imgRepo =? 0)%nat || (String.length imgTag =? 0)%nat = true <->
  imgRepo = "" \/ imgTag = "".
Proof. rewrite orb_true_iff, !length_zero. reflexivity. Qed.

(** [getNotaryImageDigestHash] as the emptiness check, then the answer of
    the trust repository, then the count of hash entries. *)
Lemma getNotaryImageDigestHash_unfold {W} (s : notaryService W) ctx imgRepo imgTag (w : W) :
  getNotaryImageDigestHash s ctx imgRepo imgTag w =
    if (String.length imgRepo =? 0)%nat || (String.length imgTag =? 0)%nat
    then (Err EmptyArguments, w)
    else match trust_lookup s imgRepo imgTag w with
         | (Err err, w') => (Err err, w')
         | (Ok target, w') =>
             if (size (Hashes target) =? 0)%nat then (Err MissingHash, w')
             else if (1 <? size (Hashes target))%nat then (Err AmbiguousHash, w')
             else (Ok (index_Hashes (Hashes target) (last_key (Hashes target))), w')
         end.
Proof.
  unfold getNotaryImageDigestHash, trust_lookup.
  destruct (_ || _); [reflexivity|].
  destruct (NewRepoClient _ _ _ _) as [[c|err] w1]; reflexivity.
Qed.

End ValidateFacts.

(** ** The validator's contract *)

Module ValidateSpec.
Import GoStrings GoStringsFacts Subtle SubtleFacts Validate Taxonomy ValidateFacts.

Lemma traced_isImageAllowed {W} (s : notaryService W) imgRepo :
  isImageAllowed (traced_service s) imgRepo = isImageAllowed s imgRepo.
Proof. reflexivity. Qed.

(** An allow-listed repository: success, the world and the call log as
    they were. *)
Lemma Validate_allowed {W} (registry : Registry W) (s : notaryService W) ctx image (w : W) log :
  Count image tagDelim = 1 ->
  isImageAllowed s (repository_of image) = true ->
  Validate (traced_registry registry) (traced_service s) ctx image (w, log) = (None, (w, log)).
Proof.
  intros Hone Hallowed.
  rewrite (Validate_two_parts _ _ _ _ _ _ _ (one_delimiter_split _ Hone)).
  rewrite traced_isImageAllowed, Hallowed. reflexivity.
Qed.

Lemma Validate_reordered {W} (registry : Registry W) (s : notaryService W) reordered
    ctx image (w : W) :
  Permutation (AllowedRegistries (ServiceConfig_ s)) reordered ->
  Validate registry (with_AllowedRegistries s reordered) ctx image w =
  Validate registry s ctx image w.
Proof.
  intros HP. unfold Validate.
  destruct (negb (length (Split image tagDelim) =? 2)%nat); [reflexivity|].
  unfold isImageAllowed at 1. simpl AllowedRegistries.
  rewrite <- (isImageAllowed_loop_Permutation _ _ _ HP).
  reflexivity.
Qed.

(** C1. For a reference with exactly one [:] whose repository is not
    allow-listed: when the trust lookup returns a digest and the registry
    fetch returns a digest, [Validate] returns [nil] if the two are the
    same byte sequence and the error "unexpected image hash value" if
    they are not. *)
Theorem Validate_compares_digests {W} (registry : Registry W) (s : notaryService W)
    ctx image expected actual (w w1 w2 : W) :
  Count image tagDelim = 1 ->
  isImageAllowed s (repository_of image) = false ->
  getNotaryImageDigestHash s ctx (repository_of image) (tag_of image) w = (Ok expected, w1) ->
  getImageDigestHash registry s image w1 = (Ok actual, w2) ->
  (actual = expected -> Validate registry s ctx image w = (None, w2)) /\
  (actual <> expected ->
   Validate registry s ctx image w = (Some (errors_New "unexpected image hash value"), w2)).
Proof.
  intros Hone Hallowed Htrust Hfetch.
  rewrite (Validate_two_parts _ _ _ _ _ _ _ (one_delimiter_split _ Hone)).
  rewrite Hallowed, Htrust, Hfetch.
  split; intros H; destruct (decide (actual = expected)); try contradiction; reflexivity.
Qed.

(** C2. For a reference with exactly one [:] whose repository starts with
    an entry of [AllowedRegistries], [Validate] returns [nil] and calls
    neither the trust repository nor the registry; and reordering
    [AllowedRegistries] changes the outcome of [Validate] for no
    reference. *)
Theorem Validate_allowed_registry_bypass {W} (registry : Registry W) (s : notaryService W)
    ctx image allowed (w : W) (log : list Call) :
  Count image tagDelim = 1 ->
  In allowed (AllowedRegistries (ServiceConfig_ s)) ->
  HasPrefix (repository_of image) allowed = true ->
  Validate (traced_registry registry) (traced_service s) ctx image (w, log)
    = (None, (w, log)) /\
  (forall reordered, Permutation (AllowedRegistries (ServiceConfig_ s)) reordered ->
     isImageAllowed (with_AllowedRegistries s reordered) (repository_of image) = true /\
     forall ctx' image' w',
       Validate registry (with_AllowedRegistries s reordered) ctx' image' w' =
       Validate registry s ctx' image' w').
Proof.
  intros Hone Hin Hprefix.
  assert (Hallowed : isImageAllowed s (repository_of image) = true).
  { apply isImageAllowed_loop_true. exists allowed. auto. }
  split; [now apply Validate_allowed|].
  intros reordered HP. split.
  - unfold isImageAllowed. simpl.
    rewrite <- (isImageAllowed_loop_Permutation _ _ _ HP). exact Hallowed.
  - intros. now apply Validate_reordered.
Qed.

(** C4. A reference that does not hold exactly one [:] fails with
    "image name is not formatted correctly", whatever the allow list is,
    and no collaborator is called. *)
Theorem Validate_malformed_reference {W} (registry : Registry W) (s : notaryService W)
    ctx image (w : W) (log : list Call) :
  Count image tagDelim <> 1 ->
  Validate (traced_registry registry) (traced_service s) ctx image (w, log)
    = (Some (errors_New "image name is not formatted correctly"), (w, log)).
Proof.
  intros Hcount. unfold Validate.
  destruct (Nat.eqb_spec (length (Split image tagDelim)) 2) as [Hlen|Hlen]; [|reflexivity].
  apply Split_two_iff in Hlen. contradiction.
Qed.

(** C10. With the empty string among [AllowedRegistries], every reference
    with exactly one [:] is accepted without a call to the trust
    repository or the registry. *)
Theorem Validate_empty_prefix_allows_all {W} (registry : Registry W) (s : notaryService W)
    ctx image (w : W) (log : list Call) :
  In "" (AllowedRegistries (ServiceConfig_ s)) ->
  Count image tagDelim = 1 ->
  Validate (traced_registry registry) (traced_service s) ctx image (w, log)
    = (None, (w, log)).
Proof.
  intros Hin Hone. apply Validate_allowed; [exact Hone|].
  apply isImageAllowed_loop_true. exists "". split; [exact Hin | apply HasPrefix_empty].
Qed.

Lemma Validate_compares_digests_witness :
  let image := "eu.gcr.io/proj/app:v1" in
  let s := Mock.service ["some-allowed/"] (Mock.signing Mock.deadbeef) in
  let same := Mock.registry "deadbeef" in
  let other := Mock.registry "deadbeee" in
  Count image tagDelim = 1 /\
  isImageAllowed s (repository_of image) = false /\
  getNotaryImageDigestHash s Mock.background (repository_of image) (tag_of image) 0
    = (Ok Mock.deadbeef, 2) /\
  getImageDigestHash same s image 2 = (Ok Mock.deadbeef, 4) /\
  getImageDigestHash other s image 2 = (Ok [xde; xad; xbe; xee]%byte, 4) /\
  Validate same s Mock.background image 0 = (None, 4) /\
  Validate other s Mock.background image 0
    = (Some (errors_New "unexpected image hash value"), 4).
Proof.
  intros image s same other.
  assert (H1 : Count image tagDelim = 1) by reflexivity.
  assert (H2 : isImageAllowed s (repository_of image) = false) by reflexivity.
  assert (H3 : getNotaryImageDigestHash s Mock.background (repository_of image)
                 (tag_of image) 0 = (Ok Mock.deadbeef, 2))
    by (vm_compute; reflexivity).
  assert (H4 : getImageDigestHash same s image 2 = (Ok Mock.deadbeef, 4))
    by (vm_compute; reflexivity).
  assert (H5 : getImageDigestHash other s image 2 = (Ok [xde; xad; xbe; xee]%byte, 4))
    by (vm_compute; reflexivity).
  repeat (split; [assumption|]). split.
  - apply (proj1 (Validate_compares_digests same s Mock.background image _ _ 0 2 4
                    H1 H2 H3 H4)).
    reflexivity.
  - apply (proj2 (Validate_compares_digests other s Mock.background image _ _ 0 2 4
                    H1 H2 H3 H5)).
    discriminate.
Defined.

Lemma Validate_allowed_registry_bypass_witness :
  let image := "some-allowed/repo:stable" in
  let s := Mock.service ["some-allowed/"] (Mock.factory (Err (errors_New "it shouldn't be called"))) in
  Count image tagDelim = 1 /\
  In "some-allowed/" (AllowedRegistries (ServiceConfig_ s)) /\
  HasPrefix (repository_of image) "some-allowed/" = true /\
  Validate (traced_registry (Mock.registry "deadbeef")) (traced_service s)
    Mock.background image (0, []) = (None, (0, [])).
Proof.
  intros image s.
  assert (H1 : Count image tagDelim = 1) by reflexivity.
  assert (H2 : In "some-allowed/" (AllowedRegistries (ServiceConfig_ s)))
    by (left; reflexivity).
  assert (H3 : HasPrefix (repository_of image) "some-allowed/" = true) by reflexivity.
  repeat (split; [assumption|]).
  exact (proj1 (Validate_allowed_registry_bypass (Mock.registry "deadbeef") s
                  Mock.background image "some-allowed/" 0 [] H1 H2 H3)).
Defined.

Lemma Validate_malformed_reference_witness :
  let s := Mock.service [""] (Mock.signing Mock.deadbeef) in
  Count "repo:port/image-name:tag" tagDelim <> 1 /\
  Validate (traced_registry (Mock.registry "deadbeef")) (traced_service s)
    Mock.background "repo:port/image-name:tag" (0, [])
  = (Some (errors_New "image name is not formatted correctly"), (0, [])).
Proof.
  intros s.
  assert (H1 : Count "repo:port/image-name:tag" tagDelim <> 1) by (simpl; lia).
  split; [exact H1|].
  exact (Validate_malformed_reference (Mock.registry "deadbeef") s Mock.background
           "repo:port/image-name:tag" 0 [] H1).
Defined.

Lemma Validate_empty_prefix_allows_all_witness :
  let s := Mock.service ["eu.gcr.io/"; ""] (Mock.factory (Err (errors_New "it shouldn't be called"))) in
  In "" (AllowedRegistries (ServiceConfig_ s)) /\
  Count "nginx:latest" tagDelim = 1 /\
  Validate (traced_registry (Mock.registry "deadbeef")) (traced_service s)
    Mock.background "nginx:latest" (0, []) = (None, (0, [])).
Proof.
  intros s.
  assert (H1 : In "" (AllowedRegistries (ServiceConfig_ s))) by (right; left; reflexivity).
  assert (H2 : Count "nginx:latest" tagDelim = 1) by reflexivity.
  repeat (split; [assumption|]).
  exact (Validate_empty_prefix_allows_all (Mock.registry "deadbeef") s Mock.background
           "nginx:latest" 0 [] H1 H2).
Defined.

(** C9, at an input where claim and code part.  The context has expired
    ([ctx.Err()] is [context.DeadlineExceeded]), yet [Validate] performs
    both lookups and returns [nil], with a short digest as with the
    32-byte sha256 digest of the package's tests; in general its outcome
    is the same for every context, since neither lookup is handed the
    context. *)
Theorem Validate_ignores_expired_deadline :
  ctx_Err Mock.expired = Some context_DeadlineExceeded /\
  Validate (traced_registry (Mock.registry "deadbeef"))
    (traced_service (Mock.service [] (Mock.signing Mock.deadbeef)))
    Mock.expired "eu.gcr.io/proj/app:v1" (0, [])
  = (None,
     (4, [Call_NewRepoClient "eu.gcr.io/proj/app" {| Url := "https://signing.example" |};
          Call_GetTargetByName "v1"; Call_remote_Image; Call_Manifest])) /\
  (forall (W : Type) (registry : Registry W) (s : notaryService W) ctx ctx' image (w : W),
     Validate registry s ctx image w = Validate registry s ctx' image w) /\
  Validate (traced_registry (Mock.registry Mock.TrustedImageHex))
    (traced_service (Mock.service [] (Mock.signing Mock.TrustedImageHash)))
    Mock.expired "eu.gcr.io/kyma-project/function-controller:PR-16481" (0, [])
  = (None,
     (4, [Call_NewRepoClient "eu.gcr.io/kyma-project/function-controller"
            {| Url := "https://signing.example" |};
          Call_GetTargetByName "PR-16481"; Call_remote_Image; Call_Manifest])).
Proof.
  split; [reflexivity|]. split; [vm_compute; reflexivity|].
  split; [|vm_compute; reflexivity].
  intros. apply Validate_ignores_ctx.
Qed.

(** C5, as stated, fails: there are further cases in which the step
    returns no digest.  Here repository and tag are not empty and, the
    client factory failing, no target is returned at all. *)
Lemma getNotaryImageDigestHash_factory_failure :
  let s := Mock.service [] (Mock.factory (Err (errors_New "no such host"))) in
  getNotaryImageDigestHash s Mock.background "nginx" "latest" 0
    = (Err (errors_New "no such host"), 1) /\
  ~ (no_digest (getNotaryImageDigestHash s Mock.background "nginx" "latest" 0)
     <-> own_failure s "nginx" "latest" 0).
Proof.
  intros s. split; [reflexivity|].
  intros [Hto _].
  assert (Hno : no_digest (getNotaryImageDigestHash s Mock.background "nginx" "latest" 0))
    by (intros digest; discriminate).
  destruct (Hto Hno) as [H|[H|(target & w' & H & _)]]; discriminate.
Qed.

(** C5, amended.  The trust lookup step fails with "empty arguments
    provided" when repository or tag is empty; for a non-empty pair it
    fails with "image hash is missing" when the returned target has no
    hash entry and with "more than one hash for image" when it has
    several, returns the entry's digest when there is exactly one, and
    hands on the error when client construction or target lookup fails.
    No digest is returned in exactly these cases: the three failures of
    its own and a failure of the trust repository. *)
Theorem getNotaryImageDigestHash_failures {W} (s : notaryService W) ctx imgRepo imgTag (w : W) :
  let r := getNotaryImageDigestHash s ctx imgRepo imgTag w in
  (imgRepo = "" \/ imgTag = "" -> r = (Err (errors_New "empty arguments provided"), w)) /\
  (imgRepo <> "" -> imgTag <> "" ->
   (forall target w', trust_lookup s imgRepo imgTag w = (Ok target, w') ->
      (size (Hashes target) = 0 -> r = (Err (errors_New "image hash is missing"), w')) /\
      (1 < size (Hashes target) ->
         r = (Err (errors_New "more than one hash for image"), w')) /\
      (size (Hashes target) = 1 ->
         exists key digest, Hashes target = {[ key := digest ]} /\ r = (Ok digest, w'))) /\
   (forall err w', trust_lookup s imgRepo imgTag w = (Err err, w') -> r = (Err err, w'))) /\
  (no_digest r <-> own_failure s imgRepo imgTag w \/ lookup_failure s imgRepo imgTag w).
Proof.
  intros r. subst r. rewrite getNotaryImageDigestHash_unfold.
  destruct ((String.length imgRepo =? 0)%nat || (String.length imgTag =? 0)%nat) eqn:Hempty.
  - apply empty_arguments in Hempty. split; [reflexivity|]. split; [tauto|].
    split; [intros _; left|intros _ digest; discriminate].
    unfold own_failure. tauto.
  - assert (Hne : ~ (imgRepo = "" \/ imgTag = "")).
    { rewrite <- empty_arguments, Hempty. discriminate. }
    split; [tauto|]. split.
    + intros _ _. split.
      * intros target w' ->. split; [|split].
        -- intros ->. reflexivity.
        -- intros Hmany.
           destruct (Nat.eqb_spec (size (Hashes target)) 0); [lia|].
           now rewrite (proj2 (Nat.ltb_lt _ _) Hmany).
        -- intros Hone. rewrite Hone. simpl.
           destruct (single_hash _ Hone) as (key & digest & Hmap & Hidx).
           exists key, digest. rewrite Hidx. auto.
      * intros err w' ->. reflexivity.
    + unfold own_failure, lookup_failure.
      destruct (trust_lookup s imgRepo imgTag w) as [[target|err] w'] eqn:Hlookup.
      * destruct (Nat.eqb_spec (size (Hashes target)) 0) as [Hzero|Hzero].
        { split; [|intros _ digest; discriminate].
          intros _. left. right. right. exists target, w'. auto. }
        destruct (Nat.ltb_spec 1 (size (Hashes target))) as [Hmany|Hmany].
        { split; [|intros _ digest; discriminate].
          intros _. left. right. right. exists target, w'. auto. }
        split.
        -- intros Hno. exfalso. exact (Hno _ eq_refl).
        -- intros [[H|[H|(t & w2 & H & Hsize)]]|(err & w2 & H)]; try tauto;
             try discriminate.
           injection H as <- <-. lia.
      * split; [|intros _ digest; discriminate].
        intros _. right. exists err, w'. reflexivity.
Qed.

Lemma getNotaryImageDigestHash_failures_witness :
  let none := Mock.service [] (Mock.signing_with ∅) in
  let two := Mock.service []
    (Mock.signing_with {[ "sha256" := Mock.deadbeef; "sha512" := Mock.deadbeef ]}) in
  let one := Mock.service [] (Mock.signing Mock.deadbeef) in
  getNotaryImageDigestHash one Mock.background "" "latest" 0
    = (Err (errors_New "empty arguments provided"), 0) /\
  getNotaryImageDigestHash none Mock.background "nginx" "latest" 0
    = (Err (errors_New "image hash is missing"), 2) /\
  getNotaryImageDigestHash two Mock.background "nginx" "latest" 0
    = (Err (errors_New "more than one hash for image"), 2) /\
  exists key digest,
    {[ "sha256" := Mock.deadbeef ]} = ({[ key := digest ]} : gmap string (list byte)) /\
    getNotaryImageDigestHash one Mock.background "nginx" "latest" 0 = (Ok digest, 2).
Proof.
  intros none two one.
  assert (Hr : "nginx" <> "") by discriminate.
  assert (Ht : "latest" <> "") by discriminate.
  split; [|split; [|split]].
  - apply (proj1 (getNotaryImageDigestHash_failures one Mock.background "" "latest" 0)).
    left. reflexivity.
  - apply (proj1 (proj1 (proj1 (proj2 (getNotaryImageDigestHash_failures none
             Mock.background "nginx" "latest" 0)) Hr Ht) (Mock.target ∅) 2 eq_refl)).
    reflexivity.
  - apply (proj1 (proj2 (proj1 (proj1 (proj2 (getNotaryImageDigestHash_failures two
             Mock.background "nginx" "latest" 0)) Hr Ht)
             (Mock.target {[ "sha256" := Mock.deadbeef; "sha512" := Mock.deadbeef ]})
             2 eq_refl))).
    vm_compute. lia.
  - apply (proj2 (proj2 (proj1 (proj1 (proj2 (getNotaryImageDigestHash_failures one
             Mock.background "nginx" "latest" 0)) Hr Ht)
             (Mock.target {[ "sha256" := Mock.deadbeef ]}) 2 eq_refl))).
    vm_compute. reflexivity.
Defined.

End ValidateSpec.

(** ** [EnsureWebhookConfigurationFor] *)

Module CertsFacts.
Import admissionregistrationv1 Certs.

Lemma DeepEqual_eq {A} `{EqDecision A} (x y : A) : reflect.DeepEqual x y = true <-> x = y.
Proof. unfold reflect.DeepEqual. apply bool_decide_eq_true. Qed.

Lemma Ensure_mutating path {W} ctx (client : Client W) config wt (w : W) :
  wt = MutatingWebhook ->
  EnsureWebhookConfigurationFor path ctx client config wt w =
  ensureMutatingWebhookConfigFor path ctx client config w.
Proof. intros ->. reflexivity. Qed.

Lemma Ensure_validating path {W} ctx (client : Client W) config wt (w : W) :
  wt <> MutatingWebhook ->
  EnsureWebhookConfigurationFor path ctx client config wt w =
  ensureValidatingWebhookConfigFor ctx client config w.
Proof.
  intros Hwt. unfold EnsureWebhookConfigurationFor.
  now rewrite bool_decide_eq_false_2.
Qed.

Section Traced.
Variable path : string.
Context {W : Type}.
Variable client : Client W.
Variable ctx : Context.
Variable config : WebhookConfig.

(** The mutating reconciler against a traced client: the outcome and the
    requests it adds to the log. *)
Lemma ensureMutating_traced (w : W) (log : list Request) :
  ensureMutatingWebhookConfigFor path ctx (traced client) config (w, log) =
  let desired := createMutatingWebhookConfiguration path config in
  match Get_mutating client ctx mutating_key w with
  | (Err err, w1) =>
      if IsNotFound err then
        let '(created, w2) := Create_mutating client ctx desired w1 in
        (Wrap created "while creating webhook mutation configuration",
         (w2, log ++ [Request_Get_mutating mutating_key; Request_Create_mutating desired]))
      else
        (Some (errors_Wrap err
                 ("failed to get defaulting MutatingWebhookConfiguration: "
                    +:+ DefaultingWebhookName)),
         (w1, log ++ [Request_Get_mutating mutating_key]))
  | (Ok live, w1) =>
      if decide (mwc_Webhooks desired = mwc_Webhooks live) then
        (None, (w1, log ++ [Request_Get_mutating mutating_key]))
      else
        let obj := mwc_set_ObjectMeta desired (mwc_ObjectMeta live) in
        let '(updated, w2) := Update_mutating client ctx obj w1 in
        (Wrap updated "while updating webhook mutation configuration",
         (w2, log ++ [Request_Get_mutating mutating_key; Request_Update_mutating obj]))
  end.
Proof.
  unfold ensureMutatingWebhookConfigFor.
  cbn [traced Get_mutating Create_mutating Update_mutating].
  unfold record. cbn [fst snd]. fold mutating_key.
  destruct (Get_mutating client ctx mutating_key w) as [[live|err] w1]; cbn [fst snd].
  - unfold reflect.DeepEqual.
    destruct (decide (mwc_Webhooks (createMutatingWebhookConfiguration path config)
                      = mwc_Webhooks live)) as [Heq|Hne].
    + rewrite bool_decide_eq_true_2 by exact Heq. reflexivity.
    + rewrite bool_decide_eq_false_2 by exact Hne. cbn [negb]. unfold metav1.DeepCopy.
      destruct (Update_mutating client ctx _ w1) as [updated w2].
      cbn [fst snd]. now rewrite <- app_assoc.
  - destruct (IsNotFound err); [|reflexivity].
    destruct (Create_mutating client ctx _ w1) as [created w2].
    cbn [fst snd]. now rewrite <- app_assoc.
Qed.

Lemma ensureValidating_traced (w : W) (log : list Request) :
  ensureValidatingWebhookConfigFor ctx (traced client) config (w, log) =
  let desired := createValidatingWebhookConfiguration config in
  match Get_validating client ctx validating_key w with
  | (Err err, w1) =>
      if IsNotFound err then
        let '(created, w2) := Create_validating client ctx desired w1 in
        (created,
         (w2, log ++ [Request_Get_validating validating_key; Request_Create_validating desired]))
      else
        (Some (errors_Wrap err
                 ("failed to get validation ValidatingWebhookConfiguration: "
                    +:+ ValidationWebhookName)),
         (w1, log ++ [Request_Get_validating validating_key]))
  | (Ok live, w1) =>
      if decide (vwc_Webhooks desired = vwc_Webhooks live) then
        (None, (w1, log ++ [Request_Get_validating validating_key]))
      else
        let obj := vwc_set_ObjectMeta desired (vwc_ObjectMeta live) in
        let '(updated, w2) := Update_validating client ctx obj w1 in
        (updated,
         (w2, log ++ [Request_Get_validating validating_key; Request_Update_validating obj]))
  end.
Proof.
  unfold ensureValidatingWebhookConfigFor.
  cbn [traced Get_validating Create_validating Update_validating].
  unfold record. cbn [fst snd]. fold validating_key.
  destruct (Get_validating client ctx validating_key w) as [[live|err] w1]; cbn [fst snd].
  - unfold reflect.DeepEqual.
    destruct (decide (vwc_Webhooks (createValidatingWebhookConfiguration config)
                      = vwc_Webhooks live)) as [Heq|Hne].
    + rewrite bool_decide_eq_true_2 by exact Heq. reflexivity.
    + rewrite bool_decide_eq_false_2 by exact Hne. cbn [negb]. unfold metav1.DeepCopy.
      destruct (Update_validating client ctx _ w1) as [updated w2].
      cbn [fst snd]. now rewrite <- app_assoc.
  - destruct (IsNotFound err); [|reflexivity].
    destruct (Create_validating client ctx _ w1) as [created w2].
    cbn [fst snd]. now rewrite <- app_assoc.
Qed.

End Traced.

End CertsFacts.

(** ** The reconciler's contract *)

Module CertsSpec.
Import admissionregistrationv1 Certs CertsFacts.

Section Contract.
Variable path : string.

(** C6. When the live object is found, only the webhook lists of the
    desired and the live object are compared.  If they are equal the
    reconciler returns [nil] after the fetch, with no write.  If they
    differ it issues one update after the fetch and nothing else; the
    updated object has the live object's metadata and the desired
    webhook list. *)
Theorem Ensure_found_compares_webhooks {W} (client : Client W) ctx config (wt : WebHookType)
    (w : W) (log : list Request) :
  (wt = MutatingWebhook ->
   forall live w1, Get_mutating client ctx mutating_key w = (Ok live, w1) ->
     let desired := createMutatingWebhookConfiguration path config in
     (mwc_Webhooks desired = mwc_Webhooks live ->
        EnsureWebhookConfigurationFor path ctx (traced client) config wt (w, log)
          = (None, (w1, log ++ [Request_Get_mutating mutating_key]))) /\
     (mwc_Webhooks desired <> mwc_Webhooks live ->
        exists obj updated w2,
          mwc_ObjectMeta obj = mwc_ObjectMeta live /\
          mwc_Webhooks obj = mwc_Webhooks desired /\
          Update_mutating client ctx obj w1 = (updated, w2) /\
          EnsureWebhookConfigurationFor path ctx (traced client) config wt (w, log)
            = (Wrap updated "while updating webhook mutation configuration",
               (w2, log ++ [Request_Get_mutating mutating_key;
                            Request_Update_mutating obj])))) /\
  (wt <> MutatingWebhook ->
   forall live w1, Get_validating client ctx validating_key w = (Ok live, w1) ->
     let desired := createValidatingWebhookConfiguration config in
     (vwc_Webhooks desired = vwc_Webhooks live ->
        EnsureWebhookConfigurationFor path ctx (traced client) config wt (w, log)
          = (None, (w1, log ++ [Request_Get_validating validating_key]))) /\
     (vwc_Webhooks desired <> vwc_Webhooks live ->
        exists obj updated w2,
          vwc_ObjectMeta obj = vwc_ObjectMeta live /\
          vwc_Webhooks obj = vwc_Webhooks desired /\
          Update_validating client ctx obj w1 = (updated, w2) /\
          EnsureWebhookConfigurationFor path ctx (traced client) config wt (w, log)
            = (updated,
               (w2, log ++ [Request_Get_validating validating_key;
                            Request_Update_validating obj])))).
Proof.
  split.
  - intros Hwt live w1 Hget desired.
    rewrite (Ensure_mutating _ _ _ _ _ _ Hwt), ensureMutating_traced, Hget.
    fold desired. cbv zeta. split; intros Hcmp.
    + now rewrite decide_True by exact Hcmp.
    + rewrite decide_False by exact Hcmp.
      destruct (Update_mutating client ctx
                  (mwc_set_ObjectMeta desired (mwc_ObjectMeta live)) w1)
        as [updated w2] eqn:Hupd.
      exists (mwc_set_ObjectMeta desired (mwc_ObjectMeta live)), updated, w2.
      repeat split; assumption.
  - intros Hwt live w1 Hget desired.
    rewrite (Ensure_validating _ _ _ _ _ _ Hwt), ensureValidating_traced, Hget.
    fold desired. cbv zeta. split; intros Hcmp.
    + now rewrite decide_True by exact Hcmp.
    + rewrite decide_False by exact Hcmp.
      destruct (Update_validating client ctx
                  (vwc_set_ObjectMeta desired (vwc_ObjectMeta live)) w1)
        as [updated w2] eqn:Hupd.
      exists (vwc_set_ObjectMeta desired (vwc_ObjectMeta live)), updated, w2.
      repeat split; assumption.
Qed.

(** C7. For every configuration the mutating object holds one webhook
    with failure policy [Fail], reinvocation policy [Never], match policy
    [Exact], scope [*], side effects [None], the operations [CREATE] and
    [UPDATE] on [pods], service port 443, timeout 15 and the review
    versions [v1beta1] and [v1]; the validating object holds one webhook
    with the same rules, match policy, side effects, port, timeout and
    versions, failure policy [Ignore] and the path [/validation/pods].
    Both take the CA bundle and the service from the configuration and
    nothing else. *)
Theorem desired_objects_are_fixed (config : WebhookConfig) :
  exists mw vw,
    mwc_Webhooks (createMutatingWebhookConfiguration path config) = Some [mw] /\
    vwc_Webhooks (createValidatingWebhookConfiguration config) = Some [vw] /\
    mw_FailurePolicy mw = Some Fail /\
    mw_ReinvocationPolicy mw = Some NeverReinvocationPolicy /\
    mw_MatchPolicy mw = Some Exact /\
    mw_SideEffects mw = Some SideEffectClassNone /\
    mw_Rules mw =
      Some [ {| Operations := Some [Create; Update];
                Rule_ := {| APIGroups := Some [""]; APIVersions := Some ["v1"];
                            Resources := Some ["pods"]; Scope := Some AllScopes |} |} ] /\
    mw_ClientConfig mw =
      {| URL := None;
         Service := Some {| Namespace := ServiceNamespace config; Name := ServiceName config;
                            Path := Some path; Port := Some 443%Z |};
         CABundle := CABundel config |} /\
    mw_TimeoutSeconds mw = Some 15%Z /\
    mw_AdmissionReviewVersions mw = Some ["v1beta1"; "v1"] /\
    vw_Rules vw = mw_Rules mw /\
    vw_MatchPolicy vw = mw_MatchPolicy mw /\
    vw_SideEffects vw = mw_SideEffects mw /\
    vw_TimeoutSeconds vw = mw_TimeoutSeconds mw /\
    vw_AdmissionReviewVersions vw = mw_AdmissionReviewVersions mw /\
    vw_FailurePolicy vw = Some Ignore /\
    vw_ClientConfig vw =
      {| URL := None;
         Service := Some {| Namespace := ServiceNamespace config; Name := ServiceName config;
                            Path := Some "/validation/pods"; Port := Some 443%Z |};
         CABundle := CABundel config |} /\
    mwc_ObjectMeta (createMutatingWebhookConfiguration path config)
      = metav1.named "defaulting.webhook.warden.kyma-project.io" /\
    vwc_ObjectMeta (createValidatingWebhookConfiguration config)
      = metav1.named "validation.webhook.warden.kyma-project.io".
Proof.
  eexists _, _. split; [reflexivity|]. split; [reflexivity|].
  repeat split.
Qed.

(** C8, amended.  When the fetch answers not-found, the reconciler
    builds the desired object from the configuration and issues one
    create.  Any other fetch error is returned wrapped: the caller gets
    "failed to get ...: <name>" with the fetch error as its cause, after
    that one fetch, with no write and no second attempt. *)
Theorem Ensure_fetch_error {W} (client : Client W) ctx config (wt : WebHookType)
    (w : W) (log : list Request) :
  (wt = MutatingWebhook ->
   forall err w1, Get_mutating client ctx mutating_key w = (Err err, w1) ->
     let desired := createMutatingWebhookConfiguration path config in
     (IsNotFound err = true ->
        exists created w2,
          Create_mutating client ctx desired w1 = (created, w2) /\
          EnsureWebhookConfigurationFor path ctx (traced client) config wt (w, log)
            = (Wrap created "while creating webhook mutation configuration",
               (w2, log ++ [Request_Get_mutating mutating_key;
                            Request_Create_mutating desired]))) /\
     (IsNotFound err = false ->
        EnsureWebhookConfigurationFor path ctx (traced client) config wt (w, log)
          = (Some (errors_Wrap err
                     "failed to get defaulting MutatingWebhookConfiguration: defaulting.webhook.warden.kyma-project.io"),
             (w1, log ++ [Request_Get_mutating mutating_key])))) /\
  (wt <> MutatingWebhook ->
   forall err w1, Get_validating client ctx validating_key w = (Err err, w1) ->
     let desired := createValidatingWebhookConfiguration config in
     (IsNotFound err = true ->
        exists created w2,
          Create_validating client ctx desired w1 = (created, w2) /\
          EnsureWebhookConfigurationFor path ctx (traced client) config wt (w, log)
            = (created,
               (w2, log ++ [Request_Get_validating validating_key;
                            Request_Create_validating desired]))) /\
     (IsNotFound err = false ->
        EnsureWebhookConfigurationFor path ctx (traced client) config wt (w, log)
          = (Some (errors_Wrap err
                     "failed to get validation ValidatingWebhookConfiguration: validation.webhook.warden.kyma-project.io"),
             (w1, log ++ [Request_Get_validating validating_key])))).
Proof.
  split.
  - intros Hwt err w1 Hget desired.
    rewrite (Ensure_mutating _ _ _ _ _ _ Hwt), ensureMutating_traced, Hget.
    fold desired. cbv zeta. split; intros Hnf; rewrite Hnf; [|reflexivity].
    destruct (Create_mutating client ctx desired w1) as [created w2].
    exists created, w2. split; reflexivity.
  - intros Hwt err w1 Hget desired.
    rewrite (Ensure_validating _ _ _ _ _ _ Hwt), ensureValidating_traced, Hget.
    fold desired. cbv zeta. split; intros Hnf; rewrite Hnf; [|reflexivity].
    destruct (Create_validating client ctx desired w1) as [created w2].
    exists created, w2. split; reflexivity.
Qed.

End Contract.

End CertsSpec.

(** ** The reconciler on the in-memory API server *)

Module CertsScenarios.
Import admissionregistrationv1 Certs CertsFacts CertsSpec.

Lemma Ensure_found_compares_webhooks_witness :
  let before := FakeCluster.config [x01]%byte in
  let after := FakeCluster.config [x02]%byte in
  let c := FakeCluster.installed before in
  let live := mwc_set_ObjectMeta
                (createMutatingWebhookConfiguration FakeCluster.WebhookPath before)
                (FakeCluster.live_meta DefaultingWebhookName) in
  Get_mutating FakeCluster.client Mock.background mutating_key c = (Ok live, c) /\
  mwc_Webhooks (createMutatingWebhookConfiguration FakeCluster.WebhookPath before)
    = mwc_Webhooks live /\
  mwc_Webhooks (createMutatingWebhookConfiguration FakeCluster.WebhookPath after)
    <> mwc_Webhooks live /\
  EnsureWebhookConfigurationFor FakeCluster.WebhookPath Mock.background
    (traced FakeCluster.client) before MutatingWebhook (c, [])
    = (None, (c, [Request_Get_mutating mutating_key])) /\
  exists obj updated c',
    mwc_ObjectMeta obj = FakeCluster.live_meta DefaultingWebhookName /\
    mwc_Webhooks obj
      = mwc_Webhooks (createMutatingWebhookConfiguration FakeCluster.WebhookPath after) /\
    Update_mutating FakeCluster.client Mock.background obj c = (updated, c') /\
    EnsureWebhookConfigurationFor FakeCluster.WebhookPath Mock.background
      (traced FakeCluster.client) after MutatingWebhook (c, [])
      = (Wrap updated "while updating webhook mutation configuration",
         (c', [Request_Get_mutating mutating_key; Request_Update_mutating obj])).
Proof.
  intros before after c live.
  assert (Hget : Get_mutating FakeCluster.client Mock.background mutating_key c = (Ok live, c))
    by (vm_compute; reflexivity).
  assert (Hsame : mwc_Webhooks (createMutatingWebhookConfiguration FakeCluster.WebhookPath before)
                  = mwc_Webhooks live) by reflexivity.
  assert (Hdrift : mwc_Webhooks (createMutatingWebhookConfiguration FakeCluster.WebhookPath after)
                   <> mwc_Webhooks live) by discriminate.
  repeat (split; [assumption|]). split.
  - exact (proj1 (proj1 (Ensure_found_compares_webhooks FakeCluster.WebhookPath
                          FakeCluster.client Mock.background before MutatingWebhook c [])
                    eq_refl live c Hget) Hsame).
  - exact (proj2 (proj1 (Ensure_found_compares_webhooks FakeCluster.WebhookPath
                          FakeCluster.client Mock.background after MutatingWebhook c [])
                    eq_refl live c Hget) Hdrift).
Defined.

(** C8, as stated, fails: a fetch error other than not-found does not
    reach the caller as it is, for either kind.  The caller gets an error
    that wraps it under a message of the reconciler. *)
Lemma Ensure_wraps_fetch_error :
  let client := FakeCluster.failing FakeCluster.Unavailable in
  let run wt := fst (EnsureWebhookConfigurationFor FakeCluster.WebhookPath Mock.background
                       client (FakeCluster.config []) wt FakeCluster.empty) in
  IsNotFound FakeCluster.Unavailable = false /\
  run MutatingWebhook <> Some FakeCluster.Unavailable /\
  run ValidatingWebHook <> Some FakeCluster.Unavailable /\
  option_map Error (run MutatingWebhook)
    = Some "failed to get defaulting MutatingWebhookConfiguration: defaulting.webhook.warden.kyma-project.io: the server is currently unable to handle the request" /\
  option_map Error (run ValidatingWebHook)
    = Some "failed to get validation ValidatingWebhookConfiguration: validation.webhook.warden.kyma-project.io: the server is currently unable to handle the request".
Proof.
  intros client run. split; [reflexivity|].
  split; [discriminate|]. split; [discriminate|].
  split; vm_compute; reflexivity.
Qed.

Lemma Ensure_fetch_error_witness :
  let cfg := FakeCluster.config [x01]%byte in
  let desired := createValidatingWebhookConfiguration cfg in
  let down := FakeCluster.failing FakeCluster.Unavailable in
  ValidatingWebHook <> MutatingWebhook /\
  Get_validating FakeCluster.client Mock.background validating_key FakeCluster.empty
    = (Err (FakeCluster.NotFound ValidationWebhookName), FakeCluster.empty) /\
  IsNotFound (FakeCluster.NotFound ValidationWebhookName) = true /\
  Get_validating down Mock.background validating_key FakeCluster.empty
    = (Err FakeCluster.Unavailable, FakeCluster.empty) /\
  IsNotFound FakeCluster.Unavailable = false /\
  (exists created c',
     Create_validating FakeCluster.client Mock.background desired FakeCluster.empty
       = (created, c') /\
     EnsureWebhookConfigurationFor FakeCluster.WebhookPath Mock.background
       (traced FakeCluster.client) cfg ValidatingWebHook (FakeCluster.empty, [])
       = (created, (c', [Request_Get_validating validating_key;
                         Request_Create_validating desired]))) /\
  EnsureWebhookConfigurationFor FakeCluster.WebhookPath Mock.background
    (traced down) cfg ValidatingWebHook (FakeCluster.empty, [])
    = (Some (errors_Wrap FakeCluster.Unavailable
               "failed to get validation ValidatingWebhookConfiguration: validation.webhook.warden.kyma-project.io"),
       (FakeCluster.empty, [Request_Get_validating validating_key])).
Proof.
  intros cfg desired down.
  assert (Hwt : ValidatingWebHook <> MutatingWebhook) by discriminate.
  assert (Habsent : Get_validating FakeCluster.client Mock.background validating_key
                      FakeCluster.empty
                    = (Err (FakeCluster.NotFound ValidationWebhookName), FakeCluster.empty))
    by reflexivity.
  assert (Hnf : IsNotFound (FakeCluster.NotFound ValidationWebhookName) = true) by reflexivity.
  assert (Hdown : Get_validating down Mock.background validating_key FakeCluster.empty
                  = (Err FakeCluster.Unavailable, FakeCluster.empty)) by reflexivity.
  assert (Hother : IsNotFound FakeCluster.Unavailable = false) by reflexivity.
  repeat (split; [assumption|]). split.
  - exact (proj1 (proj2 (Ensure_fetch_error FakeCluster.WebhookPath FakeCluster.client
                          Mock.background cfg ValidatingWebHook FakeCluster.empty [])
                    Hwt _ _ Habsent) Hnf).
  - exact (proj2 (proj2 (Ensure_fetch_error FakeCluster.WebhookPath down
                          Mock.background cfg ValidatingWebHook FakeCluster.empty [])
                    Hwt _ _ Hdown) Hother).
Defined.

(** The reconcile scenario of the spec on the in-memory API server: on an
    empty cluster one create; again with the same configuration only the
    fetch; after a change of the CA bundle one update that keeps the
    stored metadata. *)
Example reconcile_create_then_noop :
  let cfg := FakeCluster.config [x01]%byte in
  let run c := EnsureWebhookConfigurationFor FakeCluster.WebhookPath Mock.background
                 (traced FakeCluster.client) cfg MutatingWebhook (c, []) in
  exists c1,
    run FakeCluster.empty
      = (None, (c1, [Request_Get_mutating mutating_key;
                     Request_Create_mutating
                       (createMutatingWebhookConfiguration FakeCluster.WebhookPath cfg)])) /\
    run c1 = (None, (c1, [Request_Get_mutating mutating_key])).
Proof.
  intros cfg run. eexists. split; vm_compute; reflexivity.
Qed.

Example reconcile_ca_change_keeps_metadata :
  let before := FakeCluster.config [x01]%byte in
  let after := FakeCluster.config [x02]%byte in
  let '(err, (c', log)) :=
    EnsureWebhookConfigurationFor FakeCluster.WebhookPath Mock.background
      (traced FakeCluster.client) after ValidatingWebHook
      (FakeCluster.installed before, []) in
  err = None /\
  filter (fun r => is_write r = true) log
    = [Request_Update_validating
         (vwc_set_ObjectMeta (createValidatingWebhookConfiguration after)
            (FakeCluster.live_meta ValidationWebhookName))] /\
  FakeCluster.validating c' !! ValidationWebhookName
    = Some (vwc_set_ObjectMeta (createValidatingWebhookConfiguration after)
              (FakeCluster.live_meta ValidationWebhookName)).
Proof. vm_compute. repeat split. Qed.

End CertsScenarios.

(** ** Further properties of the validator *)

Module ValidateMore.
Import GoStrings GoStringsFacts Subtle SubtleFacts Validate Taxonomy ValidateFacts Observations.

Lemma Validate_not_two_parts {W} (registry : Registry W) (s : notaryService W) ctx image (w : W) :
  Count image tagDelim <> 1 ->
  Validate registry s ctx image w = (Some MalformedReference, w).
Proof.
  intros Hcount. unfold Validate.
  destruct (Nat.eqb_spec (length (Split image tagDelim)) 2) as [Hlen|Hlen]; [|reflexivity].
  apply Split_two_iff in Hlen. contradiction.
Qed.

(** The traced trust lookup behaves as the plain one and logs, in order,
    the calls it made: both of them when it returns a digest. *)
Lemma getNotaryImageDigestHash_traced {W} (s : notaryService W) ctx imgRepo imgTag
    (w : W) (log : list Call) :
  let r := getNotaryImageDigestHash s ctx imgRepo imgTag w in
  let both := [Call_NewRepoClient imgRepo (NotaryConfig_ (ServiceConfig_ s));
               Call_GetTargetByName imgTag] in
  exists calls rest,
    getNotaryImageDigestHash (traced_service s) ctx imgRepo imgTag (w, log)
      = (fst r, (snd r, log ++ calls)) /\
    both = calls ++ rest /\
    (forall digest, fst r = Ok digest -> calls = both).
Proof.
  intros r both. subst r. unfold getNotaryImageDigestHash.
  destruct ((String.length imgRepo =? 0)%nat || (String.length imgTag =? 0)%nat).
  { exists [], both. rewrite app_nil_r. repeat split. intros d Hd. discriminate. }
  cbn [traced_service RepoFactory_ ServiceConfig_ traced_factory NewRepoClient].
  unfold record at 1. cbn [fst snd].
  destruct (NewRepoClient (RepoFactory_ s) imgRepo (NotaryConfig_ (ServiceConfig_ s)) w)
    as [[c|err] w1].
  2:{ exists [Call_NewRepoClient imgRepo (NotaryConfig_ (ServiceConfig_ s))],
             [Call_GetTargetByName imgTag].
      repeat split. intros d Hd. discriminate. }
  cbn [traced_client GetTargetByName]. unfold record. cbn [fst snd].
  exists both, []. rewrite <- app_assoc.
  destruct (GetTargetByName c imgTag w1) as [[target|err] w2].
  2:{ repeat split. }
  destruct (size (Hashes target) =? 0)%nat; [repeat split|].
  destruct (1 <? size (Hashes target))%nat; repeat split.
Qed.

(** The traced registry fetch behaves as the plain one and logs the calls
    it made. *)
Lemma getImageDigestHash_traced {W} (registry : Registry W) (s : notaryService W) image
    (w : W) (log : list Call) :
  let r := getImageDigestHash registry s image w in
  exists calls rest,
    getImageDigestHash (traced_registry registry) (traced_service s) image (w, log)
      = (fst r, (snd r, log ++ calls)) /\
    registry_calls = calls ++ rest.
Proof.
  intros r. subst r. unfold getImageDigestHash.
  destruct (String.length image =? 0)%nat.
  { exists [], registry_calls. rewrite app_nil_r. split; reflexivity. }
  cbn [traced_registry name_ParseReference remote_Image hex_DecodeString].
  destruct (name_ParseReference registry image) as [ref|err].
  2:{ exists [], registry_calls. rewrite app_nil_r. split; reflexivity. }
  unfold record at 1. cbn [fst snd].
  destruct (remote_Image registry ref w) as [[i|err] w1].
  2:{ exists [Call_remote_Image], [Call_Manifest]. split; reflexivity. }
  cbn [traced_image Manifest]. unfold record. cbn [fst snd].
  exists registry_calls, []. rewrite <- app_assoc.
  destruct (Manifest i w1) as [[m|err] w2]; [|split; reflexivity].
  destruct (hex_DecodeString registry (Config_Digest_Hex m)); split; reflexivity.
Qed.

(** Tracing does not change what [Validate] does: same result, same
    world, and a log that grows by a prefix of the two trust calls
    followed by the two registry calls. *)
Lemma Validate_traced {W} (registry : Registry W) (s : notaryService W) ctx image
    (w : W) (log : list Call) :
  let r := Validate registry s ctx image w in
  exists calls rest,
    Validate (traced_registry registry) (traced_service s) ctx image (w, log)
      = (fst r, (snd r, log ++ calls)) /\
    trust_calls s image ++ registry_calls = calls ++ rest.
Proof.
  intros r. subst r.
  destruct (Nat.eq_dec (Count image tagDelim) 1) as [Hone|Hnot].
  2:{ rewrite !Validate_not_two_parts by exact Hnot.
      exists [], (trust_calls s image ++ registry_calls). now rewrite app_nil_r. }
  rewrite !(Validate_two_parts _ _ _ _ _ _ _ (one_delimiter_split _ Hone)).
  change (isImageAllowed (traced_service s) (repository_of image))
    with (isImageAllowed s (repository_of image)).
  destruct (isImageAllowed s (repository_of image)).
  { exists [], (trust_calls s image ++ registry_calls). now rewrite app_nil_r. }
  destruct (getNotaryImageDigestHash_traced s ctx (repository_of image) (tag_of image) w log)
    as (calls1 & rest1 & -> & Hpre1 & Hfull).
  destruct (getNotaryImageDigestHash s ctx (repository_of image) (tag_of image) w)
    as [[expected|err] w1]; cbn [fst snd] in *.
  2:{ exists calls1, (rest1 ++ registry_calls). split; [reflexivity|].
      unfold trust_calls. rewrite Hpre1. now rewrite <- app_assoc. }
  rewrite (Hfull _ eq_refl).
  destruct (getImageDigestHash_traced registry s image w1
              (log ++ [Call_NewRepoClient (repository_of image) (NotaryConfig_ (ServiceConfig_ s));
                       Call_GetTargetByName (tag_of image)]))
    as (calls2 & rest2 & -> & Hpre2).
  exists (trust_calls s image ++ calls2), rest2.
  split.
  - unfold trust_calls. rewrite <- (app_assoc log).
    destruct (getImageDigestHash registry s image w1) as [[actual|err] w2]; cbn [fst snd];
      [|reflexivity].
    destruct (decide (actual = expected)); reflexivity.
  - rewrite Hpre2. now rewrite <- app_assoc.
Qed.

Lemma HasPrefix_app_l str prefix suffix :
  HasPrefix str prefix = true -> HasPrefix (str +:+ suffix) prefix = true.
Proof.
  revert str. induction prefix as [|p prefix IH]; intros str;
    [intros _; apply HasPrefix_empty|].
  destruct str as [|c str]; simpl; [discriminate|].
  intros H. apply andb_prop in H as [Hc Hp]. rewrite Hc. simpl. now apply IH.
Qed.

Lemma isImageAllowed_loop_app l l' imgRepo :
  isImageAllowed_loop (l ++ l') imgRepo
  = isImageAllowed_loop l imgRepo || isImageAllowed_loop l' imgRepo.
Proof.
  induction l as [|a l IH]; simpl; [reflexivity|].
  destruct (HasPrefix imgRepo a); [reflexivity | exact IH].
Qed.

Lemma Count_app a b sep : Count (a +:+ b) sep = Count a sep + Count b sep.
Proof. induction a as [|c a IH]; simpl; [reflexivity|]. rewrite IH. lia. Qed.

(** X1. [Validate] returns [nil] only for a reference with exactly one
    [:] that is either allow-listed, in which case the world is
    untouched, or for which the trust lookup and the registry fetch both
    returned a digest and the two digests are the same. *)
Theorem Validate_nil_sound {W} (registry : Registry W) (s : notaryService W)
    ctx image (w w' : W) :
  Validate registry s ctx image w = (None, w') ->
  Count image tagDelim = 1 /\
  ((isImageAllowed s (repository_of image) = true /\ w' = w) \/
   (isImageAllowed s (repository_of image) = false /\
    exists digest w1,
      getNotaryImageDigestHash s ctx (repository_of image) (tag_of image) w = (Ok digest, w1) /\
      getImageDigestHash registry s image w1 = (Ok digest, w'))).
Proof.
  intros HV.
  destruct (Nat.eq_dec (Count image tagDelim) 1) as [Hone|Hnot].
  2:{ rewrite Validate_not_two_parts in HV by exact Hnot. discriminate. }
  split; [exact Hone|].
  rewrite (Validate_two_parts _ _ _ _ _ _ _ (one_delimiter_split _ Hone)) in HV.
  destruct (isImageAllowed s (repository_of image)).
  { left. injection HV as <-. split; reflexivity. }
  right. split; [reflexivity|].
  destruct (getNotaryImageDigestHash s ctx (repository_of image) (tag_of image) w)
    as [[expected|err] w1] eqn:Htrust; [|discriminate].
  destruct (getImageDigestHash registry s image w1) as [[actual|err] w2] eqn:Hfetch;
    [|discriminate].
  destruct (decide (actual = expected)) as [->|Hne]; [|discriminate].
  injection HV as <-. exists expected, w1. split; [reflexivity | exact Hfetch].
Qed.

Lemma Validate_nil_sound_witness :
  let image := "eu.gcr.io/proj/app:v1" in
  let s := Mock.service [] (Mock.signing Mock.deadbeef) in
  Validate (Mock.registry "deadbeef") s Mock.background image 0 = (None, 4) /\
  Count image tagDelim = 1 /\
  ((isImageAllowed s (repository_of image) = true /\ 4 = 0) \/
   (isImageAllowed s (repository_of image) = false /\
    exists digest w1,
      getNotaryImageDigestHash s Mock.background (repository_of image) (tag_of image) 0
        = (Ok digest, w1) /\
      getImageDigestHash (Mock.registry "deadbeef") s image w1 = (Ok digest, 4))).
Proof.
  intros image s.
  assert (H : Validate (Mock.registry "deadbeef") s Mock.background image 0 = (None, 4))
    by (vm_compute; reflexivity).
  split; [exact H|].
  exact (Validate_nil_sound (Mock.registry "deadbeef") s Mock.background image 0 4 H).
Defined.

(** X2. Whatever the reference and the collaborators' answers, one run
    of [Validate] makes at most four outbound calls, in this order and
    each at most once: client construction for the text before the [:],
    target lookup for the text after it, [remote.Image], [Manifest].  The
    calls of a run are a prefix of that list. *)
Theorem Validate_call_order {W} (registry : Registry W) (s : notaryService W) ctx image
    (w : W) (log : list Call) :
  exists calls rest,
    snd (snd (Validate (traced_registry registry) (traced_service s) ctx image (w, log)))
      = log ++ calls /\
    [Call_NewRepoClient (repository_of image) (NotaryConfig_ (ServiceConfig_ s));
     Call_GetTargetByName (tag_of image); Call_remote_Image; Call_Manifest]
      = calls ++ rest /\
    fst (Validate (traced_registry registry) (traced_service s) ctx image (w, log))
      = fst (Validate registry s ctx image w).
Proof.
  destruct (Validate_traced registry s ctx image w log) as (calls & rest & -> & Hpre).
  exists calls, rest. repeat split. exact Hpre.
Qed.

(** X3. A reference with exactly one [:] whose repository or tag part is
    empty, and whose repository is not allow-listed, fails with "empty
    arguments provided" before any outbound call. *)
Theorem Validate_empty_part {W} (registry : Registry W) (s : notaryService W) ctx image
    (w : W) (log : list Call) :
  Count image tagDelim = 1 ->
  isImageAllowed s (repository_of image) = false ->
  repository_of image = "" \/ tag_of image = "" ->
  Validate (traced_registry registry) (traced_service s) ctx image (w, log)
    = (Some (errors_New "empty arguments provided"), (w, log)).
Proof.
  intros Hone Hallowed Hempty.
  rewrite (Validate_two_parts _ _ _ _ _ _ _ (one_delimiter_split _ Hone)).
  change (isImageAllowed (traced_service s) (repository_of image))
    with (isImageAllowed s (repository_of image)).
  rewrite Hallowed. unfold getNotaryImageDigestHash.
  now rewrite (proj2 (empty_arguments _ _) Hempty).
Qed.

Lemma Validate_empty_part_witness :
  let s := Mock.service ["some-allowed/"] (Mock.signing Mock.deadbeef) in
  Count "nginx:" tagDelim = 1 /\
  isImageAllowed s (repository_of "nginx:") = false /\
  (repository_of "nginx:" = "" \/ tag_of "nginx:" = "") /\
  Validate (traced_registry (Mock.registry "deadbeef")) (traced_service s)
    Mock.background "nginx:" (0, [])
  = (Some (errors_New "empty arguments provided"), (0, [])).
Proof.
  intros s.
  assert (H1 : Count "nginx:" tagDelim = 1) by reflexivity.
  assert (H2 : isImageAllowed s (repository_of "nginx:") = false) by reflexivity.
  assert (H3 : repository_of "nginx:" = "" \/ tag_of "nginx:" = "") by (right; reflexivity).
  repeat (split; [assumption|]).
  exact (Validate_empty_part (Mock.registry "deadbeef") s Mock.background "nginx:" 0 [] H1 H2 H3).
Defined.

(** X4. The allow list matches by string prefix, so it is closed under
    extension of the repository name: once a repository is allow-listed,
    every repository that continues its name is accepted too, without a
    lookup, whatever the tag. *)
Theorem Validate_allowed_extends {W} (registry : Registry W) (s : notaryService W) ctx
    imgRepo suffix imgTag (w : W) (log : list Call) :
  isImageAllowed s imgRepo = true ->
  Count (imgRepo +:+ suffix) tagDelim = 0 ->
  Count imgTag tagDelim = 0 ->
  isImageAllowed s (imgRepo +:+ suffix) = true /\
  Validate (traced_registry registry) (traced_service s) ctx
    ((imgRepo +:+ suffix) +:+ String tagDelim imgTag) (w, log)
    = (None, (w, log)).
Proof.
  intros Hallowed Hrepo Htag.
  assert (Hext : isImageAllowed s (imgRepo +:+ suffix) = true).
  { apply isImageAllowed_loop_true in Hallowed as (allowed & Hin & Hprefix).
    apply isImageAllowed_loop_true. exists allowed. split; [exact Hin|].
    now apply HasPrefix_app_l. }
  split; [exact Hext|].
  rewrite (Validate_two_parts _ _ _ _ _ _ _ (Split_repo_tag _ _ _ Hrepo Htag)).
  change (isImageAllowed (traced_service s) (imgRepo +:+ suffix))
    with (isImageAllowed s (imgRepo +:+ suffix)).
  now rewrite Hext.
Qed.

Lemma Validate_allowed_extends_witness :
  let s := Mock.service ["eu.gcr.io/proj"] (Mock.factory (Err (errors_New "it shouldn't be called"))) in
  isImageAllowed s "eu.gcr.io/proj" = true /\
  Count ("eu.gcr.io/proj" +:+ "ect-of-someone-else/app") tagDelim = 0 /\
  Count "v1" tagDelim = 0 /\
  Validate (traced_registry (Mock.registry "deadbeef")) (traced_service s) Mock.background
    "eu.gcr.io/project-of-someone-else/app:v1" (0, [])
  = (None, (0, [])).
Proof.
  intros s.
  assert (H1 : isImageAllowed s "eu.gcr.io/proj" = true) by reflexivity.
  assert (H2 : Count ("eu.gcr.io/proj" +:+ "ect-of-someone-else/app") tagDelim = 0)
    by reflexivity.
  assert (H3 : Count "v1" tagDelim = 0) by reflexivity.
  repeat (split; [assumption|]).
  exact (proj2 (Validate_allowed_extends (Mock.registry "deadbeef") s Mock.background
                  "eu.gcr.io/proj" "ect-of-someone-else/app" "v1" 0 [] H1 H2 H3)).
Defined.

(** X5. Growing the allow list never turns an accepted reference into a
    rejected one: if [Validate] returns [nil] for a reference, it also
    does with further entries appended to [AllowedRegistries]. *)
Theorem Validate_more_allowed {W} (registry : Registry W) (s : notaryService W) extra
    ctx image (w : W) :
  fst (Validate registry s ctx image w) = None ->
  fst (Validate registry
         (with_AllowedRegistries s (AllowedRegistries (ServiceConfig_ s) ++ extra))
         ctx image w) = None.
Proof.
  intros HV.
  destruct (Nat.eq_dec (Count image tagDelim) 1) as [Hone|Hnot].
  2:{ rewrite Validate_not_two_parts in HV by exact Hnot. discriminate. }
  rewrite (Validate_two_parts _ _ _ _ _ _ _ (one_delimiter_split _ Hone)) in HV.
  rewrite (Validate_two_parts _ _ _ _ _ _ _ (one_delimiter_split _ Hone)).
  unfold isImageAllowed at 1. cbn [with_AllowedRegistries ServiceConfig_ AllowedRegistries].
  rewrite isImageAllowed_loop_app.
  fold (isImageAllowed s (repository_of image)).
  destruct (isImageAllowed s (repository_of image)); [reflexivity|].
  cbn [orb]. destruct (isImageAllowed_loop extra (repository_of image)); [reflexivity|].
  exact HV.
Qed.

Lemma Validate_more_allowed_witness :
  let s := Mock.service ["some-allowed/"] (Mock.signing Mock.deadbeef) in
  let more := with_AllowedRegistries s (AllowedRegistries (ServiceConfig_ s) ++ ["eu.gcr.io/"]) in
  fst (Validate (Mock.registry "deadbeef") s Mock.background "eu.gcr.io/proj/app:v1" 0) = None /\
  fst (Validate (Mock.registry "deadbeef") more Mock.background "eu.gcr.io/proj/app:v1" 0) = None.
Proof.
  intros s more.
  assert (H : fst (Validate (Mock.registry "deadbeef") s Mock.background
                     "eu.gcr.io/proj/app:v1" 0) = None) by (vm_compute; reflexivity).
  split; [exact H|].
  exact (Validate_more_allowed (Mock.registry "deadbeef") s ["eu.gcr.io/"] Mock.background
           "eu.gcr.io/proj/app:v1" 0 H).
Defined.



(** X11. When the trust lookup fails for a reference that is not
    allow-listed, [Validate] returns the lookup's error unchanged and
    never contacts the registry: the calls of the run are a prefix of
    the two trust calls. *)
Theorem Validate_trust_failure_skips_registry {W} (registry : Registry W)
    (s : notaryService W) ctx image (w w1 : W) (log : list Call) err :
  Count image tagDelim = 1 ->
  isImageAllowed s (repository_of image) = false ->
  getNotaryImageDigestHash s ctx (repository_of image) (tag_of image) w = (Err err, w1) ->
  exists calls rest,
    Validate (traced_registry registry) (traced_service s) ctx image (w, log)
      = (Some err, (w1, log ++ calls)) /\
    [Call_NewRepoClient (repository_of image) (NotaryConfig_ (ServiceConfig_ s));
     Call_GetTargetByName (tag_of image)] = calls ++ rest /\
    ~ In Call_remote_Image calls /\ ~ In Call_Manifest calls.
Proof.
  intros Hone Hallowed Htrust.
  rewrite (Validate_two_parts _ _ _ _ _ _ _ (one_delimiter_split _ Hone)).
  change (isImageAllowed (traced_service s) (repository_of image))
    with (isImageAllowed s (repository_of image)).
  rewrite Hallowed.
  destruct (getNotaryImageDigestHash_traced s ctx (repository_of image) (tag_of image) w log)
    as (calls & rest & -> & Hpre & _).
  rewrite Htrust. cbn [fst snd]. exists calls, rest.
  split; [reflexivity|]. split; [exact Hpre|].
  assert (Hin : forall c, In c calls ->
                  c = Call_NewRepoClient (repository_of image) (NotaryConfig_ (ServiceConfig_ s))
                  \/ c = Call_GetTargetByName (tag_of image)).
  { intros c Hc.
    assert (Hc' : In c (calls ++ rest)) by (apply in_or_app; left; exact Hc).
    rewrite <- Hpre in Hc'. destruct Hc' as [<-|[<-|[]]]; auto. }
  split; intros Hc; destruct (Hin _ Hc); discriminate.
Qed.

Lemma Validate_trust_failure_skips_registry_witness :
  let s := Mock.service [] (Mock.factory (Ok (Mock.client (Err (errors_New "no trust data"))))) in
  Count "nginx:latest" tagDelim = 1 /\
  isImageAllowed s (repository_of "nginx:latest") = false /\
  getNotaryImageDigestHash s Mock.background (repository_of "nginx:latest")
    (tag_of "nginx:latest") 0 = (Err (errors_New "no trust data"), 2) /\
  exists calls rest,
    Validate (traced_registry (Mock.registry "deadbeef")) (traced_service s)
      Mock.background "nginx:latest" (0, [])
      = (Some (errors_New "no trust data"), (2, [] ++ calls)) /\
    [Call_NewRepoClient (repository_of "nginx:latest") (NotaryConfig_ (ServiceConfig_ s));
     Call_GetTargetByName (tag_of "nginx:latest")] = calls ++ rest /\
    ~ In Call_remote_Image calls /\ ~ In Call_Manifest calls.
Proof.
  intros s.
  assert (H1 : Count "nginx:latest" tagDelim = 1) by reflexivity.
  assert (H2 : isImageAllowed s (repository_of "nginx:latest") = false) by reflexivity.
  assert (H3 : getNotaryImageDigestHash s Mock.background (repository_of "nginx:latest")
                 (tag_of "nginx:latest") 0 = (Err (errors_New "no trust data"), 2))
    by reflexivity.
  repeat (split; [assumption|]).
  exact (Validate_trust_failure_skips_registry (Mock.registry "deadbeef") s Mock.background
           "nginx:latest" 0 2 [] _ H1 H2 H3).
Defined.

End ValidateMore.

(** ** Further properties of the reconciler *)

Module CertsMore.
Import admissionregistrationv1 Certs CertsFacts Observations.

Lemma mutating_webhooks_inj path c1 c2 :
  mwc_Webhooks (createMutatingWebhookConfiguration path c1)
  = mwc_Webhooks (createMutatingWebhookConfiguration path c2) ->
  c1 = c2.
Proof.
  destruct c1, c2. cbn. intros H. injection H as H1 H2 H3. now subst.
Qed.

Lemma validating_webhooks_inj c1 c2 :
  vwc_Webhooks (createValidatingWebhookConfiguration c1)
  = vwc_Webhooks (createValidatingWebhookConfiguration c2) ->
  c1 = c2.
Proof.
  destruct c1, c2. cbn. intros H. injection H as H1 H2 H3. now subst.
Qed.

Lemma fetch_of_mutating : fetch_of MutatingWebhook = Request_Get_mutating mutating_key.
Proof. reflexivity. Qed.

Lemma fetch_of_validating wt :
  wt <> MutatingWebhook -> fetch_of wt = Request_Get_validating validating_key.
Proof. intros H. unfold fetch_of. now rewrite bool_decide_eq_false_2. Qed.

Ltac discipline :=
  split; [reflexivity|]; split; [reflexivity|]; split; [simpl; lia|];
  split; repeat constructor.

Section More.
Variable path : string.
Context {W : Type}.
Variable client : Client W.
Variable ctx : Context.

(** X7. One run of the reconciler sends the API server one fetch and
    then at most one write, nothing else.  All its requests are for the
    selected kind of object: mutating for the kind "Mutating", validating
    for every other kind string.  A write always carries the webhook list
    built from the configuration. *)
Theorem Ensure_request_discipline config (wt : WebHookType) (w : W) (log : list Request) :
  exists writes,
    snd (snd (EnsureWebhookConfigurationFor path ctx (traced client) config wt (w, log)))
      = log ++ fetch_of wt :: writes /\
    is_write (fetch_of wt) = false /\
    length writes <= 1 /\
    Forall (fun r => is_write r = true /\ writes_desired path config r) writes /\
    Forall (fun r => request_is_mutating r = bool_decide (wt = MutatingWebhook))
      (fetch_of wt :: writes).
Proof.
  destruct (decide (wt = MutatingWebhook)) as [Hwt|Hwt].
  - rewrite (Ensure_mutating _ _ _ _ _ _ Hwt), ensureMutating_traced. subst wt.
    rewrite fetch_of_mutating. cbv zeta.
    destruct (Get_mutating client ctx mutating_key w) as [[live|err] w1].
    + destruct (decide _) as [Heq|Hne].
      * exists []. cbn. discipline.
      * destruct (Update_mutating client ctx _ w1) as [updated w2].
        eexists [_]. cbn. discipline.
    + destruct (IsNotFound err).
      * destruct (Create_mutating client ctx _ w1) as [created w2].
        eexists [_]. cbn. discipline.
      * exists []. cbn. discipline.
  - rewrite (Ensure_validating _ _ _ _ _ _ Hwt), ensureValidating_traced.
    rewrite (fetch_of_validating _ Hwt), (bool_decide_eq_false_2 _ Hwt). cbv zeta.
    destruct (Get_validating client ctx validating_key w) as [[live|err] w1].
    + destruct (decide _) as [Heq|Hne].
      * exists []. cbn. discipline.
      * destruct (Update_validating client ctx _ w1) as [updated w2].
        eexists [_]. cbn. discipline.
    + destruct (IsNotFound err).
      * destruct (Create_validating client ctx _ w1) as [created w2].
        eexists [_]. cbn. discipline.
      * exists []. cbn. discipline.
Qed.

(** X8. The reconciler swallows no error.  It returns [nil] only if the
    fetch found an object whose webhook list already is the desired one,
    in which case it wrote nothing, or if it issued one write carrying
    the desired webhook list and the API server answered that write with
    [nil]. *)
Theorem Ensure_nil_sound config (wt : WebHookType) (w w' : W) (log log' : list Request) :
  EnsureWebhookConfigurationFor path ctx (traced client) config wt (w, log)
    = (None, (w', log')) ->
  (found_in_sync path config client ctx wt w w' /\ log' = log ++ [fetch_of wt]) \/
  (exists write w1,
     log' = log ++ [fetch_of wt; write] /\
     writes_desired path config write /\
     accepted client ctx write w1 w').
Proof.
  destruct (decide (wt = MutatingWebhook)) as [Hwt|Hwt].
  - rewrite (Ensure_mutating _ _ _ _ _ _ Hwt), ensureMutating_traced. subst wt.
    rewrite fetch_of_mutating. unfold found_in_sync.
    rewrite bool_decide_eq_true_2 by reflexivity. cbv zeta.
    destruct (Get_mutating client ctx mutating_key w) as [[live|err] w1].
    + destruct (decide _) as [Heq|Hne].
      * intros H. injection H as <- <-. left. split; [|reflexivity].
        exists live. split; [reflexivity | now symmetry].
      * destruct (Update_mutating client ctx _ w1) as [[e|] w2] eqn:Hupd; [discriminate|].
        intros H. injection H as <- <-. right. eexists _, w1.
        split; [reflexivity|]. split; [reflexivity|].
        constructor. exact Hupd.
    + destruct (IsNotFound err); [|discriminate].
      destruct (Create_mutating client ctx _ w1) as [[e|] w2] eqn:Hcre; [discriminate|].
      intros H. injection H as <- <-. right. eexists _, w1.
      split; [reflexivity|]. split; [reflexivity|].
      constructor. exact Hcre.
  - rewrite (Ensure_validating _ _ _ _ _ _ Hwt), ensureValidating_traced.
    rewrite (fetch_of_validating _ Hwt). unfold found_in_sync.
    rewrite (bool_decide_eq_false_2 _ Hwt). cbv zeta.
    destruct (Get_validating client ctx validating_key w) as [[live|err] w1].
    + destruct (decide _) as [Heq|Hne].
      * intros H. injection H as <- <-. left. split; [|reflexivity].
        exists live. split; [reflexivity | now symmetry].
      * destruct (Update_validating client ctx _ w1) as [[e|] w2] eqn:Hupd; [discriminate|].
        intros H. injection H as <- <-. right. eexists _, w1.
        split; [reflexivity|]. split; [reflexivity|].
        constructor. exact Hupd.
    + destruct (IsNotFound err); [|discriminate].
      destruct (Create_validating client ctx _ w1) as [[e|] w2] eqn:Hcre; [discriminate|].
      intros H. injection H as <- <-. right. eexists _, w1.
      split; [reflexivity|]. split; [reflexivity|].
      constructor. exact Hcre.
Qed.

(** X9. Drift detection is exact in the configuration.  When the live
    object carries the webhook list built from an earlier configuration,
    a reconcile with configuration [after] stops after the fetch exactly
    when [after] equals the earlier configuration in CA bundle, service
    name and service namespace; a nil CA bundle and an empty one count
    as different. *)
Theorem Ensure_writes_iff_config_changed before after (wt : WebHookType) (w w1 : W)
    (log : list Request) :
  found_in_sync path before client ctx wt w w1 ->
  snd (snd (EnsureWebhookConfigurationFor path ctx (traced client) after wt (w, log)))
    = log ++ [fetch_of wt]
  <-> after = before.
Proof.
  unfold found_in_sync.
  destruct (decide (wt = MutatingWebhook)) as [Hwt|Hwt].
  - rewrite (Ensure_mutating _ _ _ _ _ _ Hwt), ensureMutating_traced. subst wt.
    rewrite fetch_of_mutating, bool_decide_eq_true_2 by reflexivity. cbv zeta.
    intros (live & Hget & Hweb). rewrite Hget.
    destruct (decide (mwc_Webhooks (createMutatingWebhookConfiguration path after)
                      = mwc_Webhooks live)) as [Heq|Hne].
    + split; [intros _|reflexivity].
      apply (mutating_webhooks_inj path). congruence.
    + destruct (Update_mutating client ctx _ _) as [updated w2]. cbn [fst snd]. split.
      * intros H. apply app_inv_head in H. discriminate.
      * intros ->. exfalso. apply Hne. now symmetry.
  - rewrite (Ensure_validating _ _ _ _ _ _ Hwt), ensureValidating_traced.
    rewrite (fetch_of_validating _ Hwt), (bool_decide_eq_false_2 _ Hwt). cbv zeta.
    intros (live & Hget & Hweb). rewrite Hget.
    destruct (decide (vwc_Webhooks (createValidatingWebhookConfiguration after)
                      = vwc_Webhooks live)) as [Heq|Hne].
    + split; [intros _|reflexivity].
      apply validating_webhooks_inj. congruence.
    + destruct (Update_validating client ctx _ _) as [updated w2]. cbn [fst snd]. split.
      * intros H. apply app_inv_head in H. discriminate.
      * intros ->. exfalso. apply Hne. now symmetry.
Qed.

End More.

Lemma Ensure_nil_sound_witness :
  let cfg := FakeCluster.config [x01]%byte in
  let desired := createMutatingWebhookConfiguration FakeCluster.WebhookPath cfg in
  let c1 := {| FakeCluster.mutating := {[ DefaultingWebhookName := desired ]};
               FakeCluster.validating := ∅ |} in
  EnsureWebhookConfigurationFor FakeCluster.WebhookPath Mock.background
    (traced FakeCluster.client) cfg MutatingWebhook (FakeCluster.empty, [])
    = (None, (c1, [Request_Get_mutating mutating_key; Request_Create_mutating desired])) /\
  ((found_in_sync FakeCluster.WebhookPath cfg FakeCluster.client Mock.background
      MutatingWebhook FakeCluster.empty c1 /\
    [Request_Get_mutating mutating_key; Request_Create_mutating desired]
      = [] ++ [fetch_of MutatingWebhook]) \/
   (exists write w1,
      [Request_Get_mutating mutating_key; Request_Create_mutating desired]
        = [] ++ [fetch_of MutatingWebhook; write] /\
      writes_desired FakeCluster.WebhookPath cfg write /\
      accepted FakeCluster.client Mock.background write w1 c1)).
Proof.
  intros cfg desired c1.
  assert (H : EnsureWebhookConfigurationFor FakeCluster.WebhookPath Mock.background
                (traced FakeCluster.client) cfg MutatingWebhook (FakeCluster.empty, [])
              = (None, (c1, [Request_Get_mutating mutating_key;
                             Request_Create_mutating desired])))
    by (vm_compute; reflexivity).
  split; [exact H|].
  exact (Ensure_nil_sound FakeCluster.WebhookPath FakeCluster.client Mock.background cfg
           MutatingWebhook FakeCluster.empty c1 [] _ H).
Defined.

Lemma Ensure_writes_iff_config_changed_witness :
  let before := FakeCluster.config [x01]%byte in
  let after := FakeCluster.config [x02]%byte in
  let c := FakeCluster.installed before in
  found_in_sync FakeCluster.WebhookPath before FakeCluster.client Mock.background
    ValidatingWebHook c c /\
  (snd (snd (EnsureWebhookConfigurationFor FakeCluster.WebhookPath Mock.background
               (traced FakeCluster.client) after ValidatingWebHook (c, [])))
     = [] ++ [fetch_of ValidatingWebHook]
   <-> after = before).
Proof.
  intros before after c.
  assert (H : found_in_sync FakeCluster.WebhookPath before FakeCluster.client Mock.background
                ValidatingWebHook c c).
  { unfold found_in_sync. cbn [bool_decide].
    exists (vwc_set_ObjectMeta (createValidatingWebhookConfiguration before)
              (FakeCluster.live_meta ValidationWebhookName)).
    split; [vm_compute; reflexivity | reflexivity]. }
  split; [exact H|].
  exact (Ensure_writes_iff_config_changed FakeCluster.WebhookPath FakeCluster.client
           Mock.background before after ValidatingWebHook c c [] H).
Defined.

End CertsMore.
